(** * pgmpy: NaiveBayesModel

    A shallow embedding of [pgmpy/models/NaiveBayesModel.py] and the
    properties of its structure guard ([__init__], [add_edge]), of its
    reachability query ([active_trail_nodes]), of [local_independencies]
    and of [fit].

    The model follows the Python text statement by statement.  Python
    values are kept concrete enough for the operators the source applies
    to nodes: truth testing ([if self.parent_node and ...]), [!=], [in],
    and the [set(x)] constructor, which iterates over [x]. *)

From Stdlib Require Import List String Ascii ZArith Bool Lia.
Import ListNotations.
Local Open Scope string_scope.
Local Open Scope Z_scope.
Local Open Scope list_scope.

(** ** Python values *)

(** The hashable values a node can be: "Nodes can be any hashable python
    object".  [PyNone] is the [None] that [parent_node] holds before an edge
    is added.  Python lists are not hashable, hence never nodes; an argument
    that is a Python list ([ebunch], [observed], [variables], the columns of
    a data frame) is a Rocq [list]. *)
#[local] Set Warnings "-register-all".
Inductive pyval : Type :=
| PyNone
| PyStr (s : string)
| PyInt (z : Z)
| PyTuple (items : list pyval).

(** Python's [==] on these values. *)
Fixpoint pyval_eqb (a b : pyval) {struct a} : bool :=
  match a, b with
  | PyNone, PyNone => true
  | PyStr s, PyStr t => String.eqb s t
  | PyInt x, PyInt y => Z.eqb x y
  | PyTuple l, PyTuple l' =>
      (fix items_eqb (l l' : list pyval) {struct l} : bool :=
         match l, l' with
         | [], [] => true
         | x :: xs, y :: ys => pyval_eqb x y && items_eqb xs ys
         | _, _ => false
         end) l l'
  | _, _ => false
  end.

(** Python's truth test [bool(x)]: [None], [''], [0] and [()] are false. *)
Definition truthy (v : pyval) : bool :=
  match v with
  | PyNone => false
  | PyStr s => negb (String.eqb s EmptyString)
  | PyInt z => negb (Z.eqb z 0)
  | PyTuple [] => false
  | PyTuple (_ :: _) => true
  end.

(** [isinstance(x, str)]. *)
Definition isinstance_str (v : pyval) : bool :=
  match v with PyStr _ => true | _ => false end.

(** The exceptions the module raises.  The two [ValueError]s of the source
    are told apart by their message: "Model can have only one parent node."
    is [StructureViolation], "parent node: ... is not present in the given
    data" is [DataSchemaError].  [TypeError] is what Python raises when a
    value that is not iterable is iterated. *)
Inductive exn : Type :=
| StructureViolation
| DataSchemaError (node : pyval)
| TypeError.

(** The characters of a string, each a string of length one. *)
Fixpoint chars (s : string) : list pyval :=
  match s with
  | EmptyString => []
  | String c s' => PyStr (String c EmptyString) :: chars s'
  end.

(** [iter(x)]: a string yields its characters, a tuple its items; [None]
    and integers are not iterable. *)
Definition py_iter (v : pyval) : exn + list pyval :=
  match v with
  | PyStr s => inr (chars s)
  | PyTuple l => inr l
  | PyNone | PyInt _ => inl TypeError
  end.

(** ** Sets

    A Python [set] is a duplicate-free list.  Python does not specify the
    order in which a set is enumerated; the model enumerates in order of
    first insertion, and the properties below are about membership. *)

(** [x in xs]. *)
Definition py_in (x : pyval) (xs : list pyval) : bool :=
  existsb (pyval_eqb x) xs.

(** [set(xs)] for a list [xs]. *)
Fixpoint set_of_list (xs : list pyval) : list pyval :=
  match xs with
  | [] => []
  | x :: xs' =>
      x :: filter (fun y => negb (pyval_eqb y x)) (set_of_list xs')
  end.

(** [a - b] on sets. *)
Definition set_difference (a b : list pyval) : list pyval :=
  filter (fun x => negb (py_in x b)) a.

(** [set(x)] for a value [x]: the set of what iterating [x] yields. *)
Definition py_set (v : pyval) : exn + list pyval :=
  match py_iter v with
  | inl e => inl e
  | inr xs => inr (set_of_list xs)
  end.

(** ** The graph store

    [NaiveBayesModel] inherits its node and edge containers from
    [BayesianModel] and [DirectedGraph], which live in other modules. *)

Definition edge : Type := (pyval * pyval)%type.

Definition edge_eqb (e f : edge) : bool :=
  pyval_eqb (fst e) (fst f) && pyval_eqb (snd e) (snd f).

Record DiGraph : Type := mkDiGraph {
  nodes : list pyval;
  edges : list edge
}.

Definition empty_graph : DiGraph := mkDiGraph [] [].

(** Modelled from the spec: the store's [add_node], which is not in this
    module; "idempotent semantics". *)
Definition DiGraph_add_node (n : pyval) (g : DiGraph) : DiGraph :=
  if py_in n (nodes g) then g else mkDiGraph (nodes g ++ [n]) (edges g).

(** Modelled from the spec: the store's [add_edge], which is not in this
    module; it "inserts the edge into the underlying graph store
    (auto-creating u/v as nodes if absent)", with "multi-edge-safe,
    idempotent semantics". *)
Definition DiGraph_add_edge (u v : pyval) (g : DiGraph) : DiGraph :=
  let g' := DiGraph_add_node v (DiGraph_add_node u g) in
  if existsb (edge_eqb (u, v)) (edges g') then g'
  else mkDiGraph (nodes g') (edges g' ++ [(u, v)]).

(** ** The model object *)

(** Conditional-probability table: an opaque value made by the estimator,
    one per node; only the node and its conditioning set are kept. *)
Record TabularCPD : Type := mkCPD {
  variable : pyval;
  evidence : list pyval
}.

(** The attributes of a [NaiveBayesModel] instance.  [has_parent_node] is
    [hasattr(self, 'parent_node')]: the attribute does not exist while the
    inherited constructor runs. *)
Record NaiveBayesModel : Type := mkModel {
  graph : DiGraph;
  has_parent_node : bool;
  parent_node : pyval;
  children_nodes : list pyval;
  cpds : list TabularCPD
}.

(** A method body: it reads and writes [self] and returns or raises.  An
    exception leaves [self] as it was when it was raised. *)
Definition M (A : Type) : Type := NaiveBayesModel -> (exn + A) * NaiveBayesModel.

Definition ret {A} (a : A) : M A := fun self => (inr a, self).

Definition raise {A} (e : exn) : M A := fun self => (inl e, self).

Definition bind {A B} (c : M A) (k : A -> M B) : M B :=
  fun self =>
    match c self with
    | (inl e, self') => (inl e, self')
    | (inr a, self') => k a self'
    end.

Definition get : M NaiveBayesModel := fun self => (inr self, self).

Definition lift {A} (r : exn + A) : M A := fun self => (r, self).

Declare Scope py_scope.
Delimit Scope py_scope with py.
Notation "x <- c ;; k" := (bind c (fun x => k))
  (at level 61, c at next level, right associativity) : py_scope.
Notation "c ;; k" := (bind c (fun _ => k))
  (at level 61, right associativity) : py_scope.
Local Open Scope py_scope.

(** [for x in xs: body(x)]. *)
Fixpoint for_each {A} (xs : list A) (body : A -> M unit) : M unit :=
  match xs with
  | [] => ret tt
  | x :: xs' => body x ;; for_each xs' body
  end.

(** [self.parent_node = p]; the assignment creates the attribute. *)
Definition set_parent_node (p : pyval) : M unit := fun self =>
  (inr tt, mkModel (graph self) true p (children_nodes self) (cpds self)).

(** [self.children_nodes = l]. *)
Definition set_children_nodes (l : list pyval) : M unit := fun self =>
  (inr tt, mkModel (graph self) (has_parent_node self) (parent_node self) l (cpds self)).

(** [self.children_nodes.append(v)]. *)
Definition children_nodes_append (v : pyval) : M unit := fun self =>
  (inr tt, mkModel (graph self) (has_parent_node self) (parent_node self)
                   (children_nodes self ++ [v]) (cpds self)).

(** [super(NaiveBayesModel, self).add_edge(u, v)], line 115.  The inherited
    method is taken to insert the edge.  It may refuse one (an edge from a
    node to itself, an edge that closes a directed path) after lines
    113-114 have run; the properties below are stated either for a call
    that returns, or for edges it has no ground to refuse: no self-loop,
    and no edge leaving a target. *)
Definition super_add_edge (u v : pyval) : M unit := fun self =>
  (inr tt, mkModel (DiGraph_add_edge u v (graph self)) (has_parent_node self)
                   (parent_node self) (children_nodes self) (cpds self)).

(** [NaiveBayesModel.add_edge], lines 110-115. *)
Definition add_edge (u v : pyval) : M unit :=
  self <- get ;;
  (if has_parent_node self then
     if truthy (parent_node self) && negb (pyval_eqb u (parent_node self))
     then raise StructureViolation
     else set_parent_node u ;; children_nodes_append v
   else ret tt) ;;
  super_add_edge u v.

(** The object before any constructor has run. *)
Definition blank : NaiveBayesModel := mkModel empty_graph false PyNone [] [].

(** [if ebunch:] is false for [None] and for an empty list. *)
Definition ebunch_truthy (ebunch : option (list edge)) : bool :=
  match ebunch with
  | Some (_ :: _) => true
  | _ => false
  end.

Definition ebunch_items (ebunch : option (list edge)) : list edge :=
  match ebunch with Some l => l | None => [] end.

(** Modelled from the spec: the inherited constructor
    [super(NaiveBayesModel, self).__init__(ebunch)], which is not in this
    module.  It fills the store with the given edges, through the object's
    own [add_edge]; [parent_node] does not exist yet at that point, which
    is the case the [hasattr] test of [add_edge] lets through. *)
Definition super__init__ (ebunch : option (list edge)) : M unit :=
  if ebunch_truthy ebunch
  then for_each (ebunch_items ebunch) (fun e => add_edge (fst e) (snd e))
  else ret tt.

(** The body of the loop of [__init__], lines 82-84, for the edge
    [(parent, child)]. *)
Definition fix_parent (e : edge) : M unit :=
  let parent := fst e in
  self <- get ;;
  if truthy (parent_node self) && negb (pyval_eqb parent (parent_node self))
  then raise StructureViolation
  else set_parent_node parent.

(** [NaiveBayesModel.__init__], lines 76-86. *)
Definition __init__ (ebunch : option (list edge)) : M unit :=
  super__init__ ebunch ;;
  set_parent_node PyNone ;;
  set_children_nodes [] ;;
  if ebunch_truthy ebunch then
    self <- get ;;
    for_each (edges (graph self)) fix_parent ;;
    self <- get ;;
    p <- lift (py_set (parent_node self)) ;;
    set_children_nodes (set_difference (set_of_list (nodes (graph self))) p)
  else ret tt.

(** [NaiveBayesModel(ebunch)]: the new object, or the exception of the
    constructor. *)
Definition NaiveBayesModel_new (ebunch : option (list edge)) : exn + NaiveBayesModel :=
  match __init__ ebunch blank with
  | (inl e, _) => inl e
  | (inr _, self) => inr self
  end.

(** ** Reachability *)

(** [if observed] is false for [None] and for an empty list. *)
Definition observed_truthy (observed : option (list pyval)) : bool :=
  match observed with
  | Some (_ :: _) => true
  | _ => false
  end.

Definition observed_items (observed : option (list pyval)) : list pyval :=
  match observed with Some l => l | None => [] end.

(** [NaiveBayesModel.active_trail_nodes], lines 158-161.  A query: it reads
    [self] and returns a set or raises. *)
Definition active_trail_nodes (self : NaiveBayesModel) (start : pyval)
           (observed : option (list pyval)) : exn + list pyval :=
  if observed_truthy observed && py_in (parent_node self) (observed_items observed)
  then py_set start
  else inr (set_difference
              (set_of_list (nodes (graph self)))
              (set_of_list (if observed_truthy observed
                            then observed_items observed else []))).

(** ** Local independencies *)

(** Independence assertion as [Independencies([e1, e2, e3])] receives it:
    subject, independent-of nodes, conditioning node; opaque beyond that.
    The record holds the arguments of the call of lines 187-188; whether
    the constructor, which lives in another module, accepts them is not
    modelled, and the properties of [local_independencies] that speak of
    an answer are stated for a call that returns. *)
Record Independencies : Type := mkIndependencies {
  event1 : pyval;
  event2 : list pyval;
  event3 : pyval
}.

(** The argument [variables]: "str or array like".  [OneNode v] is a call
    with the hashable value [v] itself, [NodeList l] a call with the Python
    list [l]. *)
Inductive Variables : Type :=
| OneNode (v : pyval)
| NodeList (l : list pyval).

(** [[variables] if isinstance(variables, str) else variables], as the
    [for] statement iterates it. *)
Definition variables_iter (variables : Variables) : exn + list pyval :=
  match variables with
  | OneNode v => if isinstance_str v then inr [v] else py_iter v
  | NodeList l => inr l
  end.

(** The loop of lines 186-190; [independencies] is the list built so far. *)
Fixpoint local_independencies_loop (self : NaiveBayesModel) (vars : list pyval)
         (independencies : list (option Independencies))
  : exn + list (option Independencies) :=
  match vars with
  | [] => inr independencies
  | variable :: vars' =>
      if negb (pyval_eqb variable (parent_node self)) then
        match py_set variable with
        | inl e => inl e
        | inr s =>
            local_independencies_loop self vars'
              (independencies ++
               [Some (mkIndependencies variable
                        (set_difference (set_of_list (children_nodes self)) s)
                        (parent_node self))])
        end
      else local_independencies_loop self vars' (independencies ++ [None])
  end.

(** [NaiveBayesModel.local_independencies], lines 184-191. *)
Definition local_independencies (self : NaiveBayesModel) (variables : Variables)
  : exn + list (option Independencies) :=
  match variables_iter variables with
  | inl e => inl e
  | inr vars => local_independencies_loop self vars []
  end.

(** ** Fit *)

(** A pandas data frame: its column labels and its rows. *)
Record DataFrame : Type := mkDataFrame {
  columns : list pyval;
  rows : list (list Z)
}.

(** The body of the loop of [fit], lines 231-232. *)
Definition add_child_column (parent child_node : pyval) : M unit :=
  if negb (pyval_eqb child_node parent)
  then add_edge parent child_node
  else ret tt.

Section Fit.

(** The external parameter estimator: from the selected strategy
    ([None] is the default), the structure and the dataset it makes the
    tables, or raises. *)
Variable estimator : option string -> DiGraph -> DataFrame -> exn + list TabularCPD.

(** Modelled from the spec: the inherited
    [super(NaiveBayesModel, self).fit(data, estimator_type)], which is not
    in this module.  It passes "the completed structure and the dataset"
    to the estimator and keeps the tables it returns; the structure is
    left as it is. *)
Definition super_fit (data : DataFrame) (estimator_type : option string) : M unit :=
  fun self =>
    match estimator estimator_type (graph self) data with
    | inl e => (inl e, self)
    | inr tables =>
        (inr tt, mkModel (graph self) (has_parent_node self) (parent_node self)
                         (children_nodes self) tables)
    end.

(** [NaiveBayesModel.fit], lines 228-233.  The argument is [parent]
    here, as the record has a field [parent_node]. *)
Definition fit (data : DataFrame) (parent : pyval) (estimator_type : option string)
  : M unit :=
  if negb (py_in parent (columns data)) then raise (DataSchemaError parent)
  else
    for_each (columns data) (add_child_column parent) ;;
    super_fit data estimator_type.

End Fit.

(** The model an empty constructor call returns: [NaiveBayesModel()]. *)
Definition empty_model : NaiveBayesModel := mkModel empty_graph true PyNone [] [].

(** The state a method leaves, and what it returned. *)
Definition state_after {A} (c : M A) (self : NaiveBayesModel) : NaiveBayesModel :=
  snd (c self).

Definition outcome {A} (c : M A) (self : NaiveBayesModel) : exn + A :=
  fst (c self).

(** Example nodes and models, for the evaluations below. *)
Definition str (x : string) : pyval := PyStr x.

(** [G = NaiveBayesModel(); G.add_edge('p','c1'); G.add_edge('p','c2')]. *)
Definition star_p_c1_c2 : NaiveBayesModel :=
  state_after (add_edge (str "p") (str "c1") ;; add_edge (str "p") (str "c2"))
              empty_model.

(** A one-character string: the values [x] with [set(x) == {x}]. *)
Definition single_char (v : pyval) : bool :=
  match v with
  | PyStr (String _ EmptyString) => true
  | _ => false
  end.

(** The star invariant of the data model: [parent_node] exists and is
    either unset with no edge in the store or a value Python counts as
    true; every edge leaves [parent_node]; the members of [children_nodes]
    are the targets of the edges. *)
Definition star_inv (self : NaiveBayesModel) : Prop :=
  has_parent_node self = true /\
  (parent_node self = PyNone /\ edges (graph self) = [] \/
   truthy (parent_node self) = true) /\
  (forall e, In e (edges (graph self)) -> fst e = parent_node self) /\
  (forall c, In c (children_nodes self) <->
             exists e, In e (edges (graph self)) /\ snd e = c).

(** The store lists as nodes exactly the end points of its edges: true of a
    store that grew by [add_edge] alone. *)
Definition nodes_are_endpoints (g : DiGraph) : Prop :=
  forall n, In n (nodes g) <->
            exists e, In e (edges g) /\ (fst e = n \/ snd e = n).

(** Number of items of a value, with those of its items. *)
Fixpoint pyval_size (v : pyval) : nat :=
  match v with
  | PyTuple l => S (fold_right (fun x n => (pyval_size x + n)%nat) O l)
  | _ => 1%nat
  end.

(** The store after [add_edge] for each edge of a list, in order. *)
Definition DiGraph_add_edges (l : list edge) (g : DiGraph) : DiGraph :=
  fold_left (fun g e => DiGraph_add_edge (fst e) (snd e) g) l g.



(** What the loop of [local_independencies] appends for a queried node
    whose [set(variable)] is [{variable}]. *)
Definition local_independency (self : NaiveBayesModel) (v : pyval)
  : option Independencies :=
  if pyval_eqb v (parent_node self) then None
  else Some (mkIndependencies v
               (set_difference (set_of_list (children_nodes self)) [v])
               (parent_node self)).

(** An entry of the answer of [local_independencies] belongs to a queried
    node: a null entry to the parent, an assertion to its subject. *)
Definition entry_of (self : NaiveBayesModel) (v : pyval)
           (entry : option Independencies) : Prop :=
  match entry with
  | None => v = parent_node self
  | Some a => event1 a = v /\ v <> parent_node self
  end.

(** [G = NaiveBayesModel(); G.add_edge('a','b')]. *)
Definition star_a_b : NaiveBayesModel :=
  state_after (add_edge (str "a") (str "b")) empty_model.

(** [G = NaiveBayesModel(); G.add_edge('a','b'); G.add_edge('a','c')]. *)
Definition star_a_b_c : NaiveBayesModel :=
  state_after (add_edge (str "a") (str "b") ;; add_edge (str "a") (str "c"))
              empty_model.

(** [G = NaiveBayesModel(); G.add_edge(0, 1)]. *)
Definition rooted_at_zero : NaiveBayesModel :=
  state_after (add_edge (PyInt 0) (PyInt 1)) empty_model.

(** An estimator that makes one table per node of the structure, each
    conditioned on nothing; enough to run [fit]. *)
Definition one_table_per_node (estimator_type : option string) (g : DiGraph)
           (data : DataFrame) : exn + list TabularCPD :=
  inr (map (fun n => mkCPD n []) (nodes g)).

(** ** Ancestors *)

(** [bool(x)] for an argument that is a node or a Python list. *)
Definition variables_truthy (x : Variables) : bool :=
  match x with
  | OneNode v => truthy v
  | NodeList [] => false
  | NodeList (_ :: _) => true
  end.

(** [set(x)] for an argument that is a node or a Python list. *)
Definition variables_set (x : Variables) : exn + list pyval :=
  match x with
  | OneNode v => py_set v
  | NodeList l => inr (set_of_list l)
  end.

(** [a | b] on sets. *)
Definition set_union (a b : list pyval) : list pyval :=
  a ++ set_difference b a.

(** [NaiveBayesModel._get_ancestors_of], lines 126-128.  The argument is
    a "string, list-type", as that of [local_independencies]. *)
Definition _get_ancestors_of (self : NaiveBayesModel) (obs_nodes_list : Variables)
  : exn + list pyval :=
  if negb (variables_truthy obs_nodes_list) then inr []
  else
    match variables_set obs_nodes_list with
    | inl e => inl e
    | inr observed =>
        match py_set (parent_node self) with
        | inl e => inl e
        | inr parent => inr (set_union observed parent)
        end
    end.

(** What an entry of the answer of [local_independencies] says of the
    queried node it stands for: a null entry stands for the parent; an
    assertion has the node as subject, the parent as condition, and a
    duplicate-free selection of the children as independent nodes. *)
Definition entry_for (self : NaiveBayesModel) (v : pyval)
           (entry : option Independencies) : Prop :=
  match entry with
  | None => v = parent_node self
  | Some a =>
      v <> parent_node self /\
      event1 a = v /\ event3 a = parent_node self /\
      NoDup (event2 a) /\
      (forall c, In c (event2 a) -> In c (children_nodes self))
  end.

(** * Properties *)

(** ** Values and sets *)

Section PyvalInduction.
Variable P : pyval -> Prop.
Hypothesis HNone : P PyNone.
Hypothesis HStr : forall x, P (PyStr x).
Hypothesis HInt : forall z, P (PyInt z).
Hypothesis HTuple : forall l, Forall P l -> P (PyTuple l).

Fixpoint pyval_ind_items (v : pyval) : P v :=
  match v with
  | PyNone => HNone
  | PyStr x => HStr x
  | PyInt z => HInt z
  | PyTuple l =>
      HTuple l
        ((fix items (l : list pyval) : Forall P l :=
            match l with
            | [] => Forall_nil P
            | x :: xs => Forall_cons x (pyval_ind_items x) (items xs)
            end) l)
  end.
End PyvalInduction.

Lemma pyval_eqb_eq (a b : pyval) : pyval_eqb a b = true <-> a = b.
Proof.
  revert b. induction a as [| x | z | l IH] using pyval_ind_items;
    intros [| y | w | l']; simpl; try (split; intro H; discriminate).
  - tauto.
  - rewrite String.eqb_eq. split; congruence.
  - rewrite Z.eqb_eq. split; congruence.
  - revert l'. induction IH as [| x xs Hx _ IHxs]; intros [| y ys];
      try (split; intro H; (discriminate || reflexivity)).
    rewrite andb_true_iff, Hx. specialize (IHxs ys).
    split.
    + intros [-> H]. apply IHxs in H. congruence.
    + intros H. injection H as -> ->. split; [reflexivity|]. apply IHxs. reflexivity.
Qed.

Lemma pyval_eqb_refl (a : pyval) : pyval_eqb a a = true.
Proof. apply pyval_eqb_eq. reflexivity. Qed.

Lemma pyval_eqb_neq (a b : pyval) : pyval_eqb a b = false <-> a <> b.
Proof.
  rewrite <- pyval_eqb_eq. destruct (pyval_eqb a b); split; congruence.
Qed.

Lemma py_in_In (x : pyval) (l : list pyval) : py_in x l = true <-> In x l.
Proof.
  unfold py_in. rewrite existsb_exists. split.
  - intros [y [Hy E]]. apply pyval_eqb_eq in E. subst; assumption.
  - intros H. exists x. split; [assumption | apply pyval_eqb_refl].
Qed.

Lemma py_in_not_In (x : pyval) (l : list pyval) : py_in x l = false <-> ~ In x l.
Proof.
  rewrite <- py_in_In. destruct (py_in x l); split; congruence.
Qed.

Lemma set_of_list_In (x : pyval) (l : list pyval) :
  In x (set_of_list l) <-> In x l.
Proof.
  induction l as [| y l IH]; simpl; [tauto|].
  rewrite filter_In, IH, negb_true_iff, pyval_eqb_neq.
  destruct (pyval_eqb y x) eqn:E.
  - apply pyval_eqb_eq in E. tauto.
  - apply pyval_eqb_neq in E. split; [tauto|].
    intros [H | H]; [tauto|]. right. split; [assumption | congruence].
Qed.

Lemma set_of_list_NoDup (l : list pyval) : NoDup (set_of_list l).
Proof.
  induction l as [| y l IH]; simpl; constructor.
  - rewrite filter_In, pyval_eqb_refl. simpl. intros [_ H]. discriminate.
  - apply NoDup_filter. assumption.
Qed.

Lemma set_difference_In (x : pyval) (a b : list pyval) :
  In x (set_difference a b) <-> In x a /\ ~ In x b.
Proof.
  unfold set_difference. rewrite filter_In, negb_true_iff, py_in_not_In. tauto.
Qed.

Lemma pyval_size_item (x : pyval) (l : list pyval) :
  In x l -> (pyval_size x < pyval_size (PyTuple l))%nat.
Proof.
  simpl. induction l as [| y l IH]; simpl; [tauto|].
  intros [-> | H]; [lia | specialize (IH H); lia].
Qed.

Lemma tuple_not_item (l : list pyval) : ~ In (PyTuple l) l.
Proof.
  intros H. apply pyval_size_item in H. lia.
Qed.

(** ** The store *)

Lemma edge_eqb_eq (e f : edge) : edge_eqb e f = true <-> e = f.
Proof.
  destruct e as [a b], f as [c d]. unfold edge_eqb; simpl.
  rewrite andb_true_iff, !pyval_eqb_eq. split; [intros [-> ->] | intros [= -> ->]]; auto.
Qed.

Lemma edge_in_In (e : edge) (l : list edge) :
  existsb (edge_eqb e) l = true <-> In e l.
Proof.
  rewrite existsb_exists. split.
  - intros [f [Hf E]]. apply edge_eqb_eq in E. subst; assumption.
  - intros H. exists e. split; [assumption | apply edge_eqb_eq; reflexivity].
Qed.

Lemma add_node_edges (n : pyval) (g : DiGraph) :
  edges (DiGraph_add_node n g) = edges g.
Proof. unfold DiGraph_add_node. destruct (py_in n (nodes g)); reflexivity. Qed.

Lemma add_node_nodes (n x : pyval) (g : DiGraph) :
  In x (nodes (DiGraph_add_node n g)) <-> In x (nodes g) \/ x = n.
Proof.
  unfold DiGraph_add_node. destruct (py_in n (nodes g)) eqn:E; simpl.
  - apply py_in_In in E. split; [tauto | intros [H | ->]; assumption].
  - rewrite in_app_iff. simpl. split; intros [H | H]; auto.
    destruct H as [H | []]; auto.
Qed.

Lemma add_edge_edges (u v : pyval) (g : DiGraph) (e : edge) :
  In e (edges (DiGraph_add_edge u v g)) <-> In e (edges g) \/ e = (u, v).
Proof.
  unfold DiGraph_add_edge. cbv zeta. rewrite !add_node_edges.
  destruct (existsb (edge_eqb (u, v)) (edges g)) eqn:E; simpl.
  - apply edge_in_In in E. rewrite !add_node_edges.
    split; [tauto | intros [H | ->]; assumption].
  - rewrite in_app_iff. simpl.
    split; intros [H | H]; auto. destruct H as [H | []]; auto.
Qed.

Lemma add_edge_nodes (u v : pyval) (g : DiGraph) (x : pyval) :
  In x (nodes (DiGraph_add_edge u v g)) <-> In x (nodes g) \/ x = u \/ x = v.
Proof.
  unfold DiGraph_add_edge. cbv zeta.
  destruct (existsb _ _); simpl; rewrite !add_node_nodes; tauto.
Qed.


Lemma add_edge_endpoints (u v : pyval) (g : DiGraph) :
  nodes_are_endpoints g -> nodes_are_endpoints (DiGraph_add_edge u v g).
Proof.
  intros H n. rewrite add_edge_nodes, (H n). split.
  - intros [[e [He Hn]] | Hn].
    + exists e. rewrite add_edge_edges. auto.
    + exists (u, v). rewrite add_edge_edges. simpl.
      split; [right; reflexivity | destruct Hn as [-> | ->]; auto].
  - intros [e [He Hn]]. apply add_edge_edges in He as [He | ->].
    + left. exists e. auto.
    + right. simpl in Hn. destruct Hn as [<- | <-]; auto.
Qed.

(** ** [add_edge], case by case *)

Lemma add_edge_rejects (u v : pyval) (self : NaiveBayesModel) :
  has_parent_node self = true ->
  truthy (parent_node self) = true ->
  u <> parent_node self ->
  add_edge u v self = (inl StructureViolation, self).
Proof.
  intros Hattr Ht Hne. apply pyval_eqb_neq in Hne.
  unfold add_edge, bind, get. rewrite Hattr, Ht, Hne. reflexivity.
Qed.

Lemma add_edge_accepts (u v : pyval) (self : NaiveBayesModel) :
  has_parent_node self = true ->
  truthy (parent_node self) = false \/ u = parent_node self ->
  add_edge u v self =
  (inr tt, mkModel (DiGraph_add_edge u v (graph self)) true u
                   (children_nodes self ++ [v]) (cpds self)).
Proof.
  intros Hattr H. unfold add_edge, bind, get. rewrite Hattr.
  assert (E : truthy (parent_node self) && negb (pyval_eqb u (parent_node self)) = false).
  { destruct H as [-> | <-]; [reflexivity|].
    rewrite pyval_eqb_refl. apply andb_false_r. }
  rewrite E. reflexivity.
Qed.

Lemma add_edge_before_attributes (u v : pyval) (self : NaiveBayesModel) :
  has_parent_node self = false ->
  add_edge u v self =
  (inr tt, mkModel (DiGraph_add_edge u v (graph self)) false (parent_node self)
                   (children_nodes self) (cpds self)).
Proof.
  intros Hattr. unfold add_edge, bind, get. rewrite Hattr.
  unfold ret, super_add_edge. rewrite Hattr. reflexivity.
Qed.

(** Whatever [add_edge] answers is one of the two cases above. *)
Lemma add_edge_cases (u v : pyval) (self : NaiveBayesModel) :
  has_parent_node self = true ->
  (truthy (parent_node self) = true /\ u <> parent_node self /\
   add_edge u v self = (inl StructureViolation, self)) \/
  ((truthy (parent_node self) = false \/ u = parent_node self) /\
   add_edge u v self =
   (inr tt, mkModel (DiGraph_add_edge u v (graph self)) true u
                    (children_nodes self ++ [v]) (cpds self))).
Proof.
  intros Hattr.
  destruct (truthy (parent_node self)) eqn:Ht.
  - destruct (pyval_eqb u (parent_node self)) eqn:E.
    + apply pyval_eqb_eq in E. right. split; [auto|].
      apply add_edge_accepts; auto.
    + apply pyval_eqb_neq in E. left. repeat split; auto.
      apply add_edge_rejects; auto.
  - right. split; [auto|]. apply add_edge_accepts; auto.
Qed.

Lemma add_edge_keeps_star (u v : pyval) (self self' : NaiveBayesModel) :
  star_inv self ->
  truthy u = true ->
  add_edge u v self = (inr tt, self') ->
  star_inv self' /\
  (parent_node self <> PyNone -> parent_node self' = parent_node self).
Proof.
  intros (Hattr & Hp & Hsrc & Hch) Hu Hrun.
  destruct (add_edge_cases u v self Hattr) as [(_ & _ & E) | (Hc & E)];
    rewrite E in Hrun; [discriminate|].
  injection Hrun as <-. simpl.
  assert (Hsame : forall e, In e (edges (graph self)) -> fst e = u).
  { intros e He. rewrite (Hsrc e He).
    destruct Hp as [[_ Hnil] | Ht]; [rewrite Hnil in He; destruct He|].
    destruct Hc as [Hc | Hc]; congruence. }
  split; [repeat split; simpl|].
  - right. assumption.
  - intros e He. apply add_edge_edges in He as [He | ->]; auto.
  - rewrite in_app_iff. simpl. intros [Hc' | [<- | []]].
    + apply Hch in Hc' as [e [He Hs]]. exists e. rewrite add_edge_edges. auto.
    + exists (u, v). rewrite add_edge_edges. auto.
  - intros [e [He Hs]]. rewrite in_app_iff. simpl.
    apply add_edge_edges in He as [He | ->].
    + left. apply Hch. exists e. auto.
    + right. left. simpl in Hs. assumption.
  - intros Hset. destruct Hp as [[Hn _] | Ht]; [contradiction|].
    destruct Hc as [Hc | Hc]; congruence.
Qed.

(** ** The constructor *)

Lemma add_edges_edges (l : list edge) (g : DiGraph) (e : edge) :
  In e (edges (DiGraph_add_edges l g)) <-> In e (edges g) \/ In e l.
Proof.
  unfold DiGraph_add_edges. revert g.
  induction l as [| [u v] l IH]; intros g; simpl; [tauto|].
  rewrite IH, add_edge_edges. simpl. intuition congruence.
Qed.


Lemma add_edges_endpoints (l : list edge) (g : DiGraph) :
  nodes_are_endpoints g -> nodes_are_endpoints (DiGraph_add_edges l g).
Proof.
  unfold DiGraph_add_edges. revert g.
  induction l as [| [u v] l IH]; intros g H; simpl; [assumption|].
  apply IH, add_edge_endpoints, H.
Qed.

Lemma empty_graph_endpoints : nodes_are_endpoints empty_graph.
Proof.
  intros n. simpl. split; [tauto | intros [e [[] _]]].
Qed.

(** The inherited constructor only fills the store. *)
Lemma super__init__blank (ebunch : option (list edge)) :
  super__init__ ebunch blank =
  (inr tt, mkModel (DiGraph_add_edges (ebunch_items ebunch) empty_graph)
                   false PyNone [] []).
Proof.
  assert (L : forall l self, has_parent_node self = false ->
            for_each l (fun e => add_edge (fst e) (snd e)) self =
            (inr tt, mkModel (DiGraph_add_edges l (graph self)) false
                             (parent_node self) (children_nodes self) (cpds self))).
  { induction l as [| [u v] l IH]; intros self H; simpl.
    - unfold ret. destruct self; simpl in *; subst; reflexivity.
    - unfold bind. rewrite add_edge_before_attributes by assumption.
      rewrite IH by reflexivity. reflexivity. }
  unfold super__init__. destruct ebunch as [[| e l] |]; try reflexivity.
  exact (L (e :: l) blank eq_refl).
Qed.

(** A [bind] that returns went through both its parts. *)
Lemma bind_returns {A B} (c : M A) (k : A -> M B) (self self' : NaiveBayesModel) (b : B) :
  bind c k self = (inr b, self') ->
  exists a mid, c self = (inr a, mid) /\ k a mid = (inr b, self').
Proof.
  unfold bind. destruct (c self) as [[e | a] mid]; [discriminate|].
  intros H. exists a, mid. auto.
Qed.

Lemma fix_parent_returns (e : edge) (self self' : NaiveBayesModel) :
  fix_parent e self = (inr tt, self') ->
  (truthy (parent_node self) = true -> parent_node self = fst e) /\
  self' = mkModel (graph self) true (fst e) (children_nodes self) (cpds self).
Proof.
  unfold fix_parent, bind, get.
  destruct (truthy (parent_node self) && negb (pyval_eqb (fst e) (parent_node self)))
    eqn:E; [discriminate|].
  unfold set_parent_node. intros [= <-]. split; [| reflexivity].
  intros T. rewrite T in E. simpl in E. apply negb_false_iff in E.
  apply pyval_eqb_eq in E. congruence.
Qed.

(** The loop that fixes the parent, over sources Python counts as true:
    if it ends without raising, all the sources are one node, now the
    parent. *)
Lemma fix_parent_loop (es : list edge) (self self' : NaiveBayesModel) :
  (forall e, In e es -> truthy (fst e) = true) ->
  for_each es fix_parent self = (inr tt, self') ->
  (es = [] /\ self' = self) \/
  (exists p, (forall e, In e es -> fst e = p) /\
             (truthy (parent_node self) = true -> parent_node self = p) /\
             self' = mkModel (graph self) true p (children_nodes self) (cpds self)).
Proof.
  revert self. induction es as [| e es IH]; intros self Ht Hrun; simpl in Hrun.
  - left. unfold ret in Hrun. split; congruence.
  - right. apply bind_returns in Hrun as ([] & mid & Hfix & Hrun).
    apply fix_parent_returns in Hfix as [Hsame ->].
    apply IH in Hrun; [| intros f Hf; apply Ht; right; assumption].
    destruct Hrun as [[-> ->] | (p & Hall & Hp & ->)]; simpl in *.
    + exists (fst e). split; [intros f [<- | []]; reflexivity | auto].
    + assert (Hpe : fst e = p) by (apply Hp, Ht; left; reflexivity).
      exists p. split; [intros f [<- | Hf]; auto|].
      split; [intros T; rewrite <- Hpe; auto | reflexivity].
Qed.

Lemma single_char_truthy (v : pyval) : single_char v = true -> truthy v = true.
Proof.
  destruct v as [| [| c [| d x]] | z | l]; simpl; intros H; congruence.
Qed.

Lemma single_char_set (v : pyval) : single_char v = true -> py_set v = inr [v].
Proof.
  destruct v as [| [| c [| d x]] | z | l]; simpl; intros H; try discriminate.
  reflexivity.
Qed.

Lemma new_without_edges : NaiveBayesModel_new None = inr empty_model.
Proof. reflexivity. Qed.

Lemma star_inv_empty : star_inv empty_model.
Proof.
  repeat split; simpl; auto; try tauto. intros [e [[] _]].
Qed.

(** Bulk construction from edges whose sources are one-character strings,
    none a self-loop: a constructor that returns returns a star. *)
Lemma new_is_star (ebunch : option (list edge)) (self : NaiveBayesModel) :
  (forall e, In e (ebunch_items ebunch) ->
             single_char (fst e) = true /\ fst e <> snd e) ->
  NaiveBayesModel_new ebunch = inr self ->
  star_inv self.
Proof.
  intros Hin Hnew. unfold NaiveBayesModel_new in Hnew.
  destruct (__init__ ebunch blank) as [[err | []] fin] eqn:Hrun; [discriminate|].
  injection Hnew as ->. unfold __init__ in Hrun.
  apply bind_returns in Hrun as ([] & m1 & H1 & Hrun).
  rewrite super__init__blank in H1. injection H1 as <-.
  apply bind_returns in Hrun as ([] & m2 & H2 & Hrun).
  unfold set_parent_node in H2. injection H2 as <-.
  apply bind_returns in Hrun as ([] & m3 & H3 & Hrun).
  unfold set_children_nodes in H3. injection H3 as <-.
  cbn [graph has_parent_node parent_node children_nodes cpds] in Hrun.
  set (g := DiGraph_add_edges (ebunch_items ebunch) empty_graph) in *.
  destruct (ebunch_truthy ebunch) eqn:Et.
  2:{ unfold ret in Hrun. injection Hrun as <-.
      repeat split; simpl; auto.
      - left. split; [reflexivity|]. unfold g.
        destruct ebunch as [[| e l] |]; try discriminate; reflexivity.
      - intros e He. unfold g in He.
        destruct ebunch as [[| e' l] |]; try discriminate; destruct He.
      - tauto.
      - intros [e [He _]]. unfold g in He.
        destruct ebunch as [[| e' l] |]; try discriminate; destruct He. }
  apply bind_returns in Hrun as (self0 & m4 & H4 & Hrun).
  unfold get in H4. injection H4 as <- <-.
  cbn [graph has_parent_node parent_node children_nodes cpds] in Hrun.
  apply bind_returns in Hrun as ([] & mid & Eloop & Hrun).
  assert (Hedges : forall e, In e (edges g) <-> In e (ebunch_items ebunch)).
  { intros e. unfold g. rewrite add_edges_edges. simpl. tauto. }
  assert (Hne : exists e, In e (edges g)).
  { destruct ebunch as [[| e l] |]; try discriminate.
    exists e. apply Hedges. left. reflexivity. }
  destruct Hne as [e0 He0].
  apply fix_parent_loop in Eloop.
  2:{ intros e He. apply single_char_truthy, Hin, Hedges, He. }
  destruct Eloop as [[Hnil ->] | (p & Hall & _ & ->)].
  { rewrite Hnil in He0. destruct He0. }
  cbn [graph has_parent_node parent_node children_nodes cpds] in Hrun.
  assert (Hp : single_char p = true).
  { rewrite <- (Hall e0 He0). apply Hin, Hedges, He0. }
  apply bind_returns in Hrun as (self1 & m5 & H5 & Hrun).
  unfold get in H5. injection H5 as <- <-.
  apply bind_returns in Hrun as (ps & m6 & H6 & Hrun).
  unfold lift in H6.
  cbn [graph has_parent_node parent_node children_nodes cpds] in H6.
  rewrite (single_char_set p Hp) in H6. injection H6 as <- <-.
  unfold set_children_nodes in Hrun.
  cbn [graph has_parent_node parent_node children_nodes cpds] in Hrun.
  injection Hrun as <-.
  repeat split; cbn [graph has_parent_node parent_node children_nodes cpds].
  - right. apply single_char_truthy, Hp.
  - exact Hall.
  - rewrite set_difference_In, set_of_list_In. intros [Hn Hc].
    apply (add_edges_endpoints _ _ empty_graph_endpoints) in Hn.
    destruct Hn as [e [He [Hs | Hs]]]; [| exists e; auto].
    exfalso. apply Hc. left. rewrite <- Hs. symmetry. apply Hall, He.
  - intros [e [He Hs]]. rewrite set_difference_In, set_of_list_In. split.
    + apply (add_edges_endpoints _ _ empty_graph_endpoints).
      exists e. auto.
    + intros [Hc | []]. apply Hedges in He as He'. apply Hin in He' as [_ Hloop].
      apply Hloop. rewrite (Hall e He). congruence.
Qed.

(** The loop that fixes the parent returns when all the sources are one
    node and the parent is unset or that node. *)
Lemma fix_parent_loop_accepts (p : pyval) (es : list edge) :
  forall (e : edge) (self : NaiveBayesModel),
    (forall f, In f (e :: es) -> fst f = p) ->
    truthy (parent_node self) = false \/ parent_node self = p ->
    for_each (e :: es) fix_parent self =
    (inr tt, mkModel (graph self) true p (children_nodes self) (cpds self)).
Proof.
  induction es as [| e' es IH]; intros e self Hall Hp.
  - assert (He : fst e = p) by (apply Hall; left; reflexivity).
    simpl. unfold bind, fix_parent, bind, get.
    assert (E : truthy (parent_node self) && negb (pyval_eqb (fst e) (parent_node self)) = false).
    { destruct Hp as [-> | ->]; [reflexivity|].
      rewrite He, pyval_eqb_refl. apply andb_false_r. }
    rewrite E. unfold set_parent_node, ret. rewrite He. reflexivity.
  - assert (He : fst e = p) by (apply Hall; left; reflexivity).
    change (for_each (e :: e' :: es) fix_parent self)
      with (bind (fix_parent e) (fun _ => for_each (e' :: es) fix_parent) self).
    unfold bind. unfold fix_parent at 1. unfold bind, get.
    assert (E : truthy (parent_node self) && negb (pyval_eqb (fst e) (parent_node self)) = false).
    { destruct Hp as [-> | ->]; [reflexivity|].
      rewrite He, pyval_eqb_refl. apply andb_false_r. }
    rewrite E. unfold set_parent_node at 1.
    rewrite IH; [reflexivity | | right; exact He].
    intros f Hf. apply Hall. right. assumption.
Qed.

(** Bulk construction from edges with one common source, a one-character
    string, returns a model rooted at that source. *)
Lemma new_common_source_returns (p : pyval) (e : edge) (es : list edge) :
  single_char p = true ->
  (forall f, In f (e :: es) -> fst f = p) ->
  exists self, NaiveBayesModel_new (Some (e :: es)) = inr self /\
               parent_node self = p.
Proof.
  intros Hp Hall.
  set (g := DiGraph_add_edges (e :: es) empty_graph).
  assert (Hg : forall f, In f (edges g) -> fst f = p).
  { intros f Hf. unfold g in Hf. apply add_edges_edges in Hf as [[] | Hf].
    apply Hall, Hf. }
  assert (Hne : exists f fs, edges g = f :: fs).
  { destruct (edges g) as [| f fs] eqn:E; [| eauto].
    exfalso. assert (Hin : In e (edges g)).
    { unfold g. apply add_edges_edges. right. left. reflexivity. }
    rewrite E in Hin. destruct Hin. }
  destruct Hne as (f & fs & Eg).
  exists (mkModel g true p (set_difference (set_of_list (nodes g)) [p]) []).
  split; [| reflexivity].
  unfold NaiveBayesModel_new, __init__.
  unfold bind at 1. rewrite super__init__blank.
  unfold bind at 1. unfold set_parent_node at 1.
  unfold bind at 1. unfold set_children_nodes at 1.
  cbn [graph has_parent_node parent_node children_nodes cpds ebunch_truthy ebunch_items].
  fold g. unfold bind at 1. unfold get at 1.
  cbn [graph has_parent_node parent_node children_nodes cpds].
  unfold bind at 1. rewrite Eg.
  rewrite (fix_parent_loop_accepts p fs f).
  - cbn [graph has_parent_node parent_node children_nodes cpds].
    unfold bind at 1, get at 1. unfold bind at 1. unfold lift.
    cbn [graph has_parent_node parent_node children_nodes cpds].
    rewrite (single_char_set p Hp). reflexivity.
  - rewrite <- Eg. exact Hg.
  - left. reflexivity.
Qed.

(** ** The loop of [fit] *)



Lemma fit_loop_keeps_star (p : pyval) (cols : list pyval) (self self' : NaiveBayesModel) :
  star_inv self ->
  truthy p = true ->
  for_each cols (add_child_column p) self = (inr tt, self') ->
  star_inv self' /\
  (parent_node self <> PyNone -> parent_node self' = parent_node self).
Proof.
  revert self. induction cols as [| c cols IH]; intros self Hinv Hp Hrun; simpl in Hrun.
  - unfold ret in Hrun. injection Hrun as <-. auto.
  - apply bind_returns in Hrun as ([] & mid & Hstep & Hrun).
    unfold add_child_column in Hstep.
    destruct (negb (pyval_eqb c p)).
    + apply add_edge_keeps_star in Hstep as [Hmid Hsame]; [| assumption ..].
      apply IH in Hrun as [Hfin Hsame']; [| assumption ..].
      split; [assumption|]. intros Hset.
      rewrite <- (Hsame Hset). apply Hsame'. rewrite (Hsame Hset). assumption.
    + unfold ret in Hstep. injection Hstep as <-. apply IH; assumption.
Qed.



(** ** The loop of [local_independencies] *)

Lemma local_independencies_loop_entries (self : NaiveBayesModel) (vars : list pyval) :
  forall acc r,
    local_independencies_loop self vars acc = inr r ->
    exists r', r = acc ++ r' /\ Forall2 (entry_of self) vars r'.
Proof.
  induction vars as [| v vars IH]; intros acc r H; simpl in H.
  - injection H as <-. exists []. rewrite app_nil_r. split; [reflexivity | constructor].
  - destruct (pyval_eqb v (parent_node self)) eqn:E; simpl in H.
    + apply pyval_eqb_eq in E. apply IH in H as (r' & -> & HF).
      exists (None :: r'). rewrite <- app_assoc. split; [reflexivity|].
      constructor; assumption.
    + apply pyval_eqb_neq in E. destruct (py_set v) as [err | sv]; [discriminate|].
      apply IH in H as (r' & -> & HF).
      eexists (Some _ :: r'). rewrite <- app_assoc. split; [reflexivity|].
      constructor; [split; [reflexivity | assumption] | assumption].
Qed.

(** Queried nodes that are one-character strings: one entry per node, in
    order; a child's assertion names all the other children. *)
Lemma local_independencies_single_chars (self : NaiveBayesModel) (vars : list pyval) :
  Forall (fun v => single_char v = true) vars ->
  local_independencies self (NodeList vars) = inr (map (local_independency self) vars).
Proof.
  unfold local_independencies. simpl variables_iter. cbv iota.
  intros HF. change (map (local_independency self) vars)
    with ([] ++ map (local_independency self) vars).
  generalize (@nil (option Independencies)) as acc.
  induction HF as [| v vars Hv _ IH]; intros acc; simpl.
  - rewrite app_nil_r. reflexivity.
  - unfold local_independency at 1.
    destruct (pyval_eqb v (parent_node self)); simpl.
    + rewrite IH, <- app_assoc. reflexivity.
    + rewrite (single_char_set v Hv), IH, <- app_assoc. reflexivity.
Qed.

(** With the parent observed and a one-character start node the answer is
    the singleton of the start node. *)
Lemma active_trail_parent_observed_single_char (self : NaiveBayesModel)
      (start : pyval) (observed : list pyval) :
  In (parent_node self) observed ->
  single_char start = true ->
  active_trail_nodes self start (Some observed) = inr [start].
Proof.
  intros Hin Hs. unfold active_trail_nodes.
  destruct observed as [| o l]; [destruct Hin|].
  simpl observed_truthy. simpl observed_items.
  apply py_in_In in Hin. rewrite Hin. simpl. apply single_char_set, Hs.
Qed.

(** What [__init__] does with a non-empty edge list, up to its loop. *)
Lemma new_unfolds (e : edge) (es : list edge) :
  NaiveBayesModel_new (Some (e :: es)) =
  let g := DiGraph_add_edges (e :: es) empty_graph in
  match for_each (edges g) fix_parent (mkModel g true PyNone [] []) with
  | (inl err, _) => inl err
  | (inr _, mid) =>
      match py_set (parent_node mid) with
      | inl err => inl err
      | inr ps =>
          inr (mkModel (graph mid) (has_parent_node mid) (parent_node mid)
                       (set_difference (set_of_list (nodes (graph mid))) ps)
                       (cpds mid))
      end
  end.
Proof.
  cbv zeta. unfold NaiveBayesModel_new, __init__.
  unfold bind at 1. rewrite super__init__blank.
  unfold bind at 1. unfold set_parent_node at 1.
  unfold bind at 1. unfold set_children_nodes at 1.
  cbn [graph has_parent_node parent_node children_nodes cpds ebunch_truthy ebunch_items].
  unfold bind at 1. unfold get at 1.
  cbn [graph has_parent_node parent_node children_nodes cpds].
  unfold bind at 1.
  destruct (for_each _ fix_parent _) as [[err | []] mid]; [reflexivity|].
  unfold bind at 1, get at 1. unfold bind at 1. unfold lift.
  destruct (py_set (parent_node mid)); reflexivity.
Qed.

(** Bulk construction from edges that all leave one node [p]. *)
Lemma new_common_source (p : pyval) (e : edge) (es : list edge) :
  (forall f, In f (e :: es) -> fst f = p) ->
  NaiveBayesModel_new (Some (e :: es)) =
  let g := DiGraph_add_edges (e :: es) empty_graph in
  match py_set p with
  | inl err => inl err
  | inr ps => inr (mkModel g true p (set_difference (set_of_list (nodes g)) ps) [])
  end.
Proof.
  intros Hall. rewrite new_unfolds. cbv zeta.
  set (g := DiGraph_add_edges (e :: es) empty_graph).
  assert (Hg : forall f, In f (edges g) -> fst f = p).
  { intros f Hf. unfold g in Hf. apply add_edges_edges in Hf as [[] | Hf].
    apply Hall, Hf. }
  destruct (edges g) as [| f fs] eqn:Eg.
  - exfalso. assert (Hin : In e (edges g)).
    { unfold g. apply add_edges_edges. right. left. reflexivity. }
    rewrite Eg in Hin. destruct Hin.
  - rewrite (fix_parent_loop_accepts p fs f); [reflexivity | exact Hg | left; reflexivity].
Qed.

(** Bulk construction from sources Python counts as true: a constructor
    that returns has rooted every edge at [parent_node], and its
    [children_nodes], made from a set, repeats no node. *)
Lemma new_truthy_sources (ebunch : option (list edge)) (self : NaiveBayesModel) :
  (forall e, In e (ebunch_items ebunch) -> truthy (fst e) = true) ->
  NaiveBayesModel_new ebunch = inr self ->
  has_parent_node self = true /\
  (parent_node self = PyNone /\ edges (graph self) = [] \/
   truthy (parent_node self) = true) /\
  (forall e, In e (edges (graph self)) -> fst e = parent_node self) /\
  NoDup (children_nodes self).
Proof.
  intros Ht Hnew. destruct ebunch as [[| e es] |].
  - injection Hnew as <-. simpl. repeat split; auto; try tauto. constructor.
  - rewrite new_unfolds in Hnew. cbv zeta in Hnew.
    set (g := DiGraph_add_edges (e :: es) empty_graph) in *.
    assert (Hedges : forall f, In f (edges g) <-> In f (e :: es)).
    { intros f. unfold g. rewrite add_edges_edges. simpl. tauto. }
    destruct (for_each (edges g) fix_parent (mkModel g true PyNone [] []))
      as [[err | []] mid] eqn:Eloop; [discriminate|].
    apply fix_parent_loop in Eloop.
    2:{ intros f Hf. apply Ht, Hedges, Hf. }
    assert (He : In e (edges g)) by (apply Hedges; left; reflexivity).
    destruct Eloop as [[Hnil _] | (p & Hall & _ & ->)].
    { rewrite Hnil in He. destruct He. }
    cbn [graph has_parent_node parent_node children_nodes cpds] in Hnew.
    destruct (py_set p) as [err | ps]; [discriminate|].
    injection Hnew as <-.
    cbn [graph has_parent_node parent_node children_nodes cpds].
    repeat split.
    + right. rewrite <- (Hall e He). apply Ht. left. reflexivity.
    + exact Hall.
    + apply NoDup_filter, set_of_list_NoDup.
  - injection Hnew as <-. simpl. repeat split; auto; try tauto. constructor.
Qed.

(** * The structure guard *)

Section Guard.

Variable estimator : option string -> DiGraph -> DataFrame -> exn + list TabularCPD.

Lemma super_fit_keeps_structure (data : DataFrame) (ty : option string)
      (self self' : NaiveBayesModel) :
  super_fit estimator data ty self = (inr tt, self') ->
  graph self' = graph self /\ has_parent_node self' = has_parent_node self /\
  parent_node self' = parent_node self /\ children_nodes self' = children_nodes self.
Proof.
  unfold super_fit. destruct (estimator ty (graph self) data); [discriminate|].
  intros [= <-]. simpl. auto.
Qed.

Lemma fit_keeps_star (data : DataFrame) (p : pyval) (ty : option string)
      (self self' : NaiveBayesModel) :
  star_inv self ->
  truthy p = true ->
  fit estimator data p ty self = (inr tt, self') ->
  star_inv self' /\
  (parent_node self <> PyNone -> parent_node self' = parent_node self).
Proof.
  intros Hinv Hp Hrun. unfold fit in Hrun.
  destruct (negb (py_in p (columns data))); [discriminate|].
  apply bind_returns in Hrun as ([] & mid & Hloop & Hfit).
  apply fit_loop_keeps_star in Hloop as [Hmid Hsame]; [| assumption ..].
  apply super_fit_keeps_structure in Hfit as (Hg & Ha & Hpn & Hc).
  destruct Hmid as (M1 & M2 & M3 & M4).
  unfold star_inv. rewrite Hg, Ha, Hpn, Hc. auto.
Qed.

(** C1, as amended.  For nodes that Python counts as true, the star
    invariant survives every mutation that succeeds.  After [add_edge]
    and after [fit] on a model that satisfies it, every edge of the store
    leaves [parent_node], the members of [children_nodes] are exactly the
    targets of the edges, and a [parent_node] that was set keeps its
    value; [children_nodes] is a list, and each successful [add_edge u v]
    appends [v] to it, also when the edge is in the store already.
    After bulk construction from sources that Python counts as true,
    every edge of the store leaves [parent_node] and [children_nodes]
    repeats no node; if moreover the sources are one-character strings
    and no edge is a self-loop, the members of [children_nodes] are
    exactly the targets of the edges. *)
Theorem star_invariant_after_mutation :
  (forall self u v self',
      star_inv self -> truthy u = true ->
      add_edge u v self = (inr tt, self') ->
      star_inv self' /\
      (parent_node self <> PyNone -> parent_node self' = parent_node self) /\
      children_nodes self' = children_nodes self ++ [v]) /\
  (forall ebunch self,
      (forall e, In e (ebunch_items ebunch) -> truthy (fst e) = true) ->
      NaiveBayesModel_new ebunch = inr self ->
      has_parent_node self = true /\
      (parent_node self = PyNone /\ edges (graph self) = [] \/
       truthy (parent_node self) = true) /\
      (forall e, In e (edges (graph self)) -> fst e = parent_node self) /\
      NoDup (children_nodes self) /\
      ((forall e, In e (ebunch_items ebunch) ->
                  single_char (fst e) = true /\ fst e <> snd e) ->
       forall c, In c (children_nodes self) <->
                 exists e, In e (edges (graph self)) /\ snd e = c)) /\
  (forall data p ty self self',
      star_inv self -> truthy p = true ->
      fit estimator data p ty self = (inr tt, self') ->
      star_inv self' /\
      (parent_node self <> PyNone -> parent_node self' = parent_node self)).
Proof.
  split; [| split].
  - intros self u v self' Hinv Hu Hrun.
    destruct (add_edge_keeps_star u v self self' Hinv Hu Hrun) as [H1 H2].
    repeat split; try assumption; try apply H1.
    destruct Hinv as (Hattr & _).
    destruct (add_edge_cases u v self Hattr) as [(_ & _ & E) | (_ & E)];
      rewrite E in Hrun; [discriminate|].
    injection Hrun as <-. reflexivity.
  - intros ebunch self Ht Hnew.
    destruct (new_truthy_sources ebunch self Ht Hnew) as (H1 & H2 & H3 & H4).
    repeat split; try assumption.
    + intros Hc. apply (new_is_star ebunch self H Hnew). exact Hc.
    + intros Hc. apply (new_is_star ebunch self H Hnew). exact Hc.
  - apply fit_keeps_star.
Qed.

End Guard.

(** Re-adding the edge of [star_a_b] succeeds, leaves the store with its one
    edge and leaves [children_nodes] with two entries for the one child. *)
Lemma readding_edge_duplicates_child :
  edges (graph star_a_b) = [(str "a", str "b")] /\
  outcome (add_edge (str "a") (str "b")) star_a_b = inr tt /\
  edges (graph (state_after (add_edge (str "a") (str "b")) star_a_b))
  = [(str "a", str "b")] /\
  children_nodes (state_after (add_edge (str "a") (str "b")) star_a_b)
  = [str "b"; str "b"] /\
  ~ NoDup (children_nodes (state_after (add_edge (str "a") (str "b")) star_a_b)).
Proof.
  repeat split; try reflexivity.
  intros H. inversion H as [| x l Hx Hl]; subst. apply Hx. left. reflexivity.
Qed.

Lemma star_invariant_after_mutation_witness :
  (star_inv (state_after (add_edge (str "a") (str "c")) star_a_b) /\
   parent_node (state_after (add_edge (str "a") (str "c")) star_a_b)
   = parent_node star_a_b /\
   children_nodes (state_after (add_edge (str "a") (str "c")) star_a_b)
   = children_nodes star_a_b ++ [str "c"]) /\
  (forall e, In e [(str "p1", str "c1"); (str "p1", str "c2")] ->
             fst e = str "p1") /\
  (NoDup [str "b"; str "c"] /\
   forall c, In c [str "b"; str "c"] <->
             exists e, In e [(str "a", str "b"); (str "a", str "c")] /\ snd e = c) /\
  (star_inv (state_after
               (fit one_table_per_node (mkDataFrame [str "a"; str "b"; str "c"] [])
                    (str "a") None) star_a_b) /\
   parent_node (state_after
                  (fit one_table_per_node (mkDataFrame [str "a"; str "b"; str "c"] [])
                       (str "a") None) star_a_b)
   = parent_node star_a_b).
Proof.
  assert (E : star_inv empty_model).
  { repeat split; simpl; auto; try tauto. intros [e [[] _]]. }
  pose proof (star_invariant_after_mutation one_table_per_node) as (Hadd & Hnew & Hfit).
  assert (S : star_inv star_a_b).
  { apply (Hadd empty_model (str "a") (str "b")); [exact E | reflexivity | reflexivity]. }
  assert (P : parent_node star_a_b <> PyNone) by discriminate.
  split; [| split; [| split]].
  - destruct (Hadd star_a_b (str "a") (str "c") _ S eq_refl eq_refl) as (H1 & H2 & H3).
    split; [exact H1 | split; [exact (H2 P) | exact H3]].
  - assert (T : forall e, In e (ebunch_items (Some [(str "p1", str "c1"); (str "p1", str "c2")])) ->
                          truthy (fst e) = true).
    { intros e [<- | [<- | []]]; reflexivity. }
    exact (proj1 (proj2 (proj2
             (Hnew (Some [(str "p1", str "c1"); (str "p1", str "c2")]) _ T eq_refl)))).
  - assert (T : forall e, In e (ebunch_items
                                  (Some [(str "a", str "b"); (str "a", str "c"); (str "a", str "b")])) ->
                          truthy (fst e) = true).
    { intros e [<- | [<- | [<- | []]]]; reflexivity. }
    destruct (Hnew (Some [(str "a", str "b"); (str "a", str "c"); (str "a", str "b")]) _ T eq_refl)
      as (_ & _ & _ & Hnd & Hch).
    split; [exact Hnd|]. apply Hch.
    intros e [<- | [<- | [<- | []]]]; split; (reflexivity || discriminate).
  - destruct (Hfit (mkDataFrame [str "a"; str "b"; str "c"] []) (str "a") None star_a_b _
                   S eq_refl eq_refl) as (H1 & H2).
    split; [exact H1 | exact (H2 P)].
Defined.

(** C2.  [add_edge] with a second source is not rejected when the parent
    that is set is the node [0]: [G.add_edge(0, 1)] sets [parent_node] to
    [0], and [G.add_edge(2, 3)] then returns, moves [parent_node] to [2]
    and leaves a store with two sources. *)
Theorem add_edge_second_source_after_zero :
  parent_node rooted_at_zero = PyInt 0 /\
  PyInt 2 <> parent_node rooted_at_zero /\
  add_edge (PyInt 2) (PyInt 3) rooted_at_zero =
  (inr tt,
   mkModel (mkDiGraph [PyInt 0; PyInt 1; PyInt 2; PyInt 3]
                      [(PyInt 0, PyInt 1); (PyInt 2, PyInt 3)])
           true (PyInt 2) [PyInt 1; PyInt 3] []).
Proof.
  repeat split. discriminate.
Qed.

(** C3.  Bulk construction from the one edge [('p1', 'c1')] returns a
    model whose [children_nodes] holds the parent ['p1'] as well as ['c1']:
    [set(self.parent_node)] is the set of the characters of ['p1'].  From
    the one edge [(1, 2)] the constructor raises [TypeError]. *)
Theorem construct_two_character_parent :
  NaiveBayesModel_new (Some [(str "p1", str "c1")]) =
  inr (mkModel (mkDiGraph [str "p1"; str "c1"] [(str "p1", str "c1")])
               true (str "p1") [str "p1"; str "c1"] []) /\
  NaiveBayesModel_new (Some [(PyInt 1, PyInt 2)]) = inl TypeError.
Proof.
  split; reflexivity.
Qed.

(** * Reachability *)

(** C4.  With the parent observed, the start node ['c1'] of the star
    [p -> c1, p -> c2] does not get the singleton of ['c1']:
    [set(start)] is the set of the characters ['c'] and ['1']. *)
Theorem active_trail_parent_observed_two_character_start :
  parent_node star_p_c1_c2 = str "p" /\
  active_trail_nodes star_p_c1_c2 (str "c1") (Some [str "p"])
  = inr [str "c"; str "1"] /\
  active_trail_nodes star_p_c1_c2 (str "c1") (Some [str "p"])
  <> inr [str "c1"].
Proof.
  repeat split. discriminate.
Qed.

(** C5.  When the parent is not among the observed nodes (no observed
    list, an empty one, or one without the parent), [active_trail_nodes]
    returns the nodes of the structure that are not observed, each once,
    and the same set for every start node. *)
Theorem active_trail_parent_unobserved (self : NaiveBayesModel) (start : pyval)
        (observed : option (list pyval)) :
  ~ In (parent_node self) (observed_items observed) ->
  exists reached,
    active_trail_nodes self start observed = inr reached /\
    NoDup reached /\
    (forall n, In n reached <->
               In n (nodes (graph self)) /\ ~ In n (observed_items observed)) /\
    (forall start', active_trail_nodes self start' observed = inr reached).
Proof.
  intros Hp. apply py_in_not_In in Hp.
  assert (E : forall st, active_trail_nodes self st observed =
              inr (set_difference (set_of_list (nodes (graph self)))
                                  (set_of_list (observed_items observed)))).
  { intros st. unfold active_trail_nodes. rewrite Hp, andb_false_r.
    destruct observed as [[| o l] |]; reflexivity. }
  eexists. split; [apply E|]. split; [| split].
  - apply NoDup_filter, set_of_list_NoDup.
  - intros n. rewrite set_difference_In, !set_of_list_In. tauto.
  - exact E.
Qed.

Lemma active_trail_parent_unobserved_witness :
  ~ In (parent_node star_p_c1_c2) (observed_items (Some [str "c2"])) /\
  exists reached,
    active_trail_nodes star_p_c1_c2 (str "c1") (Some [str "c2"]) = inr reached /\
    NoDup reached /\
    (forall n, In n reached <->
               In n (nodes (graph star_p_c1_c2)) /\
               ~ In n (observed_items (Some [str "c2"]))) /\
    (forall start', active_trail_nodes star_p_c1_c2 start' (Some [str "c2"])
                    = inr reached).
Proof.
  assert (H : ~ In (parent_node star_p_c1_c2) (observed_items (Some [str "c2"]))).
  { simpl. intros [H | []]. discriminate H. }
  split; [exact H|].
  exact (active_trail_parent_unobserved star_p_c1_c2 (str "c1") (Some [str "c2"]) H).
Defined.

(** C9.  With the start node ['c1'] and the parent both observed,
    the answer does not contain the start node: it is the set of the
    characters of ['c1'].  With ['c1'] observed and the parent not, the
    start node is left out as an observed node. *)
Theorem active_trail_observed_two_character_start :
  active_trail_nodes star_p_c1_c2 (str "c1") (Some [str "c1"; str "p"])
  = inr [str "c"; str "1"] /\
  ~ In (str "c1") [str "c"; str "1"] /\
  active_trail_nodes star_p_c1_c2 (str "c1") (Some [str "c1"])
  = inr [str "p"; str "c2"].
Proof.
  repeat split. intros [H | [H | []]]; discriminate H.
Qed.

(** * Local independencies *)

(** C6.  For the child ['c1'] of the star [p -> c1, p -> c2] the
    assertion that [local_independencies] returns names ['c1'] itself among
    the nodes it is independent of: [set(variable)] is the set of the
    characters of ['c1'], so that ['c1'] is not taken out of the
    children. *)
Theorem local_independencies_two_character_child :
  children_nodes star_p_c1_c2 = [str "c1"; str "c2"] /\
  local_independencies star_p_c1_c2 (NodeList [str "c1"]) =
  inr [Some (mkIndependencies (str "c1") [str "c1"; str "c2"] (str "p"))].
Proof.
  split; reflexivity.
Qed.

(** C10.  Only a string is wrapped into a one-element list: a string is
    queried as the one node it is (the parent gets the single null
    entry, and any answer has one entry, for the string itself).  Any
    other single value is iterated by the [for] statement instead of being
    treated as one node.  A value Python cannot iterate, such as an integer
    node, raises [TypeError], even when it is the parent, for which the
    one-node query [[v]] answers with the null entry.  A tuple is handled
    as the list of its items, one entry per item.  In no case does a
    single value that is not a string get the answer of the one-node
    query [[v]]. *)
Theorem local_independencies_non_string_iterated (self : NaiveBayesModel) :
  (forall x, parent_node self = PyStr x ->
             local_independencies self (OneNode (PyStr x)) = inr [None]) /\
  (forall x r, local_independencies self (OneNode (PyStr x)) = inr r ->
               exists entry, r = [entry] /\ entry_of self (PyStr x) entry) /\
  (forall v, py_iter v = inl TypeError ->
             local_independencies self (OneNode v) = inl TypeError /\
             (parent_node self = v ->
              local_independencies self (NodeList [v]) = inr [None])) /\
  (forall items,
      local_independencies self (OneNode (PyTuple items)) =
      local_independencies self (NodeList items) /\
      forall r, local_independencies self (OneNode (PyTuple items)) = inr r ->
                List.length r = List.length items /\
                Forall2 (entry_of self) items r) /\
  (forall v r, isinstance_str v = false ->
               local_independencies self (NodeList [v]) = inr r ->
               local_independencies self (OneNode v) <> inr r).
Proof.
  split; [| split; [| split; [| split]]].
  - intros x Hp. unfold local_independencies.
    cbn [variables_iter isinstance_str local_independencies_loop].
    rewrite Hp, pyval_eqb_refl. reflexivity.
  - intros x r H. unfold local_independencies in H.
    cbn [variables_iter isinstance_str] in H.
    apply local_independencies_loop_entries in H as (r' & -> & HF).
    inversion HF as [| y o ys os Hy Hys]; subst. inversion Hys; subst.
    exists o. split; [reflexivity | exact Hy].
  - intros v Hv. split.
    + unfold local_independencies.
      destruct v as [| x | z | l]; try discriminate; reflexivity.
    + intros Hp. unfold local_independencies.
      cbn [variables_iter local_independencies_loop].
      rewrite Hp, pyval_eqb_refl. reflexivity.
  - intros items. split; [reflexivity|].
    intros r H. unfold local_independencies in H.
    cbn [variables_iter isinstance_str py_iter] in H.
    apply local_independencies_loop_entries in H as (r' & -> & HF).
    simpl. split; [symmetry; eapply Forall2_length, HF | exact HF].
  - intros v r Hv Hone Hiter.
    destruct v as [| x | z | l]; try discriminate.
    unfold local_independencies in Hone, Hiter.
    cbn [variables_iter isinstance_str py_iter] in Hone, Hiter.
    apply local_independencies_loop_entries in Hiter as (r' & -> & HF).
    cbn [local_independencies_loop py_set py_iter app] in Hone.
    assert (Hr : exists entry, r' = [entry] /\ entry_of self (PyTuple l) entry).
    { destruct (pyval_eqb (PyTuple l) (parent_node self)) eqn:E;
        cbn [negb] in Hone; injection Hone as <-.
      - exists None. split; [reflexivity|]. apply pyval_eqb_eq, E.
      - eexists. split; [reflexivity|].
        split; [reflexivity | apply pyval_eqb_neq, E]. }
    destruct Hr as (entry & -> & Hentry).
    inversion HF as [| y o ys os Hy Hys]; subst. inversion Hys; subst.
    apply (tuple_not_item [y]). left.
    destruct entry as [a |]; simpl in Hy, Hentry.
    + destruct Hy as [Hy _], Hentry as [He _]. congruence.
    + congruence.
Qed.

Lemma local_independencies_non_string_iterated_witness :
  local_independencies star_p_c1_c2 (OneNode (str "p")) = inr [None] /\
  (local_independencies rooted_at_zero (OneNode (PyInt 0)) = inl TypeError /\
   local_independencies rooted_at_zero (NodeList [PyInt 0]) = inr [None]) /\
  local_independencies star_p_c1_c2 (OneNode (PyTuple [str "c1"; str "p"])) =
  local_independencies star_p_c1_c2 (NodeList [str "c1"; str "p"]) /\
  (List.length [Some (mkIndependencies (str "c1") [str "c1"; str "c2"] (str "p")); None]
   = List.length [str "c1"; str "p"] /\
   Forall2 (entry_of star_p_c1_c2) [str "c1"; str "p"]
           [Some (mkIndependencies (str "c1") [str "c1"; str "c2"] (str "p")); None]) /\
  local_independencies star_p_c1_c2 (OneNode (PyTuple [str "c1"]))
  <> inr [Some (mkIndependencies (PyTuple [str "c1"]) [str "c2"] (str "p"))].
Proof.
  destruct (local_independencies_non_string_iterated star_p_c1_c2)
    as (Hstr & _ & _ & Htup & Hnot).
  destruct (local_independencies_non_string_iterated rooted_at_zero)
    as (_ & _ & Hint & _ & _).
  split; [exact (Hstr "p" eq_refl)|].
  split.
  { destruct (Hint (PyInt 0) eq_refl) as [H1 H2]. split; [exact H1 | exact (H2 eq_refl)]. }
  split; [exact (proj1 (Htup [str "c1"; str "p"]))|].
  split; [exact (proj2 (Htup [str "c1"; str "p"]) _ eq_refl)|].
  exact (Hnot (PyTuple [str "c1"]) _ eq_refl eq_refl).
Defined.

(** * Fit *)

Section FitProperties.

Variable estimator : option string -> DiGraph -> DataFrame -> exn + list TabularCPD.


(** C8.  [fit] with a parent that is not a column of the dataset raises
    DataSchemaError and leaves [self] as it was: [parent_node],
    [children_nodes] and the store are untouched. *)
Theorem fit_unknown_parent_raises (data : DataFrame) (absent : pyval) (ty : option string)
        (self : NaiveBayesModel) :
  ~ In absent (columns data) ->
  fit estimator data absent ty self = (inl (DataSchemaError absent), self).
Proof.
  intros H. apply py_in_not_In in H. unfold fit. rewrite H. reflexivity.
Qed.

End FitProperties.



Lemma fit_unknown_parent_raises_witness :
  ~ In (str "Z") (columns (mkDataFrame [str "A"; str "B"] [])) /\
  fit one_table_per_node (mkDataFrame [str "A"; str "B"] []) (str "Z") None star_a_b
  = (inl (DataSchemaError (str "Z")), star_a_b).
Proof.
  assert (H : ~ In (str "Z") (columns (mkDataFrame [str "A"; str "B"] []))).
  { simpl. intros [H | [H | []]]; discriminate H. }
  split; [exact H|].
  exact (fit_unknown_parent_raises one_table_per_node
           (mkDataFrame [str "A"; str "B"] []) (str "Z") None star_a_b H).
Defined.

(** * Further properties *)

(** ** Ancestors of observed nodes *)

Lemma set_union_In (x : pyval) (a b : list pyval) :
  In x (set_union a b) <-> In x a \/ In x b.
Proof.
  unfold set_union. rewrite in_app_iff, set_difference_In.
  destruct (py_in x a) eqn:E.
  - apply py_in_In in E. tauto.
  - apply py_in_not_In in E. tauto.
Qed.

Lemma set_union_NoDup (a b : list pyval) :
  NoDup a -> NoDup b -> NoDup (set_union a b).
Proof.
  intros Ha Hb. unfold set_union. apply NoDup_app.
  - assumption.
  - apply NoDup_filter. assumption.
  - intros x Hx Hd. apply set_difference_In in Hd. tauto.
Qed.

Lemma py_set_raises (v : pyval) (e : exn) :
  py_set v = inl e <-> e = TypeError /\ py_iter v = inl TypeError.
Proof.
  unfold py_set. destruct v as [| x | z | l]; simpl; split;
    try (intros [= <-]; auto); try (intros [-> _]; reflexivity);
    try (intros [_ H]; discriminate H); try discriminate.
Qed.

(** For a list of observed nodes, [_get_ancestors_of] raises only
    [TypeError], and exactly when the list is not empty and [parent_node]
    is a value Python cannot iterate ([None] before any edge is added, or
    an integer); an empty list gives the empty set whatever the model. *)
Theorem get_ancestors_of_raises_iff (self : NaiveBayesModel) (obs : list pyval) (e : exn) :
  (_get_ancestors_of self (NodeList obs) = inl e <->
   e = TypeError /\ obs <> [] /\ py_iter (parent_node self) = inl TypeError) /\
  (obs = [] -> _get_ancestors_of self (NodeList obs) = inr []).
Proof.
  unfold _get_ancestors_of. destruct obs as [| o l]; simpl.
  - split; [| reflexivity]. split; [discriminate | intros (_ & H & _); congruence].
  - split; [| discriminate].
    destruct (py_set (parent_node self)) as [err | ps] eqn:E.
    + apply py_set_raises in E as [-> E]. split.
      * intros [= <-]. repeat split; [discriminate | assumption].
      * intros (-> & _). reflexivity.
    + split; [discriminate|]. intros (_ & _ & H).
      unfold py_set in E. rewrite H in E. discriminate.
Qed.

(** On a model whose parent is a one-character string, the ancestors
    of a non-empty list of observed nodes are these nodes and the parent,
    each once; of an empty list, nothing. *)
Theorem get_ancestors_of_members (self : NaiveBayesModel) (obs : list pyval) :
  single_char (parent_node self) = true ->
  exists ancestors,
    _get_ancestors_of self (NodeList obs) = inr ancestors /\
    NoDup ancestors /\
    (forall n, In n ancestors <->
               obs <> [] /\ (In n obs \/ n = parent_node self)).
Proof.
  intros Hp. unfold _get_ancestors_of. destruct obs as [| o l].
  - exists []. split; [reflexivity|]. split; [constructor|].
    intros n. simpl. split; [intros [] | intros [H _]; congruence].
  - cbn [variables_truthy negb variables_set].
    rewrite (single_char_set _ Hp). eexists. split; [reflexivity|]. split.
    + apply set_union_NoDup; [apply set_of_list_NoDup|].
      constructor; [intros [] | constructor].
    + intros n. rewrite set_union_In, set_of_list_In. simpl.
      split.
      * intros [H | [H | []]]; (split; [discriminate|]); auto.
      * intros [_ [H | H]]; auto.
Qed.

Lemma get_ancestors_of_members_witness :
  single_char (parent_node star_a_b) = true /\
  exists ancestors,
    _get_ancestors_of star_a_b (NodeList [str "b"]) = inr ancestors /\
    NoDup ancestors /\
    (forall n, In n ancestors <->
               [str "b"] <> [] /\ (In n [str "b"] \/ n = parent_node star_a_b)).
Proof.
  split; [reflexivity|].
  exact (get_ancestors_of_members star_a_b [str "b"] eq_refl).
Defined.

(** ** More on [add_edge] *)

Lemma star_inv_star_a_b : star_inv star_a_b.
Proof.
  apply (add_edge_keeps_star (str "a") (str "b") empty_model);
    [apply star_inv_empty | reflexivity | reflexivity].
Qed.

(** A rejected edge changes nothing: when [add_edge] raises
    StructureViolation, [self] is exactly as before the call, and the
    cause is the one the source tests on line 111, a parent that Python
    counts as true and differs from the new source. *)
Theorem add_edge_rejection_untouched (u v : pyval) (self self' : NaiveBayesModel) :
  add_edge u v self = (inl StructureViolation, self') ->
  self' = self /\
  has_parent_node self = true /\
  truthy (parent_node self) = true /\ u <> parent_node self.
Proof.
  intros Hrun. destruct (has_parent_node self) eqn:Hattr.
  - destruct (add_edge_cases u v self Hattr) as [(Ht & Hne & E) | (_ & E)];
      rewrite E in Hrun; [| discriminate].
    injection Hrun as <-. auto.
  - rewrite add_edge_before_attributes in Hrun by assumption. discriminate.
Qed.

Lemma add_edge_rejection_untouched_witness :
  add_edge (str "c") (str "d") star_a_b = (inl StructureViolation, star_a_b) /\
  truthy (parent_node star_a_b) = true /\ str "c" <> parent_node star_a_b.
Proof.
  split; [reflexivity|].
  destruct (add_edge_rejection_untouched (str "c") (str "d") star_a_b star_a_b eq_refl)
    as (_ & _ & H1 & H2).
  split; [exact H1 | exact H2].
Defined.

Lemma add_edge_same_source_loop (u : pyval) (ws : list pyval) :
  forall self,
    has_parent_node self = true ->
    parent_node self = u ->
    exists fin,
      for_each ws (add_edge u) self = (inr tt, fin) /\
      has_parent_node fin = true /\ parent_node fin = u /\
      children_nodes fin = children_nodes self ++ ws.
Proof.
  induction ws as [| w ws IH]; intros self Hattr Hp.
  - exists self. simpl. rewrite app_nil_r. auto.
  - simpl. unfold bind. rewrite add_edge_accepts by auto.
    destruct (IH (mkModel (DiGraph_add_edge u w (graph self)) true u
                          (children_nodes self ++ [w]) (cpds self)))
      as (fin & Hrun & Ha & Hu & Hc); [reflexivity | reflexivity |].
    exists fin. rewrite Hrun, Hc. simpl. rewrite <- app_assoc. auto.
Qed.

(** The guard stays in force.  On a star, once an edge from a source [u]
    that Python counts as true has been added, any number of further
    edges from [u] (none of them a self-loop) are accepted, and after them
    an edge from any other source is rejected with StructureViolation, the
    model left as it was. *)
Theorem add_edge_guard_persists (u v q r : pyval) (ws : list pyval)
        (self mid : NaiveBayesModel) :
  star_inv self ->
  truthy u = true ->
  v <> u ->
  (forall w, In w ws -> w <> u) ->
  add_edge u v self = (inr tt, mid) ->
  q <> u ->
  exists fin,
    for_each ws (add_edge u) mid = (inr tt, fin) /\
    parent_node fin = u /\
    children_nodes fin = children_nodes self ++ v :: ws /\
    add_edge q r fin = (inl StructureViolation, fin).
Proof.
  intros (Hattr & _) Hu _ _ Hrun Hq.
  destruct (add_edge_cases u v self Hattr) as [(_ & _ & E) | (_ & E)];
    rewrite E in Hrun; [discriminate|].
  injection Hrun as <-.
  edestruct (add_edge_same_source_loop u ws) as (fin & Hloop & Ha & Hp & Hc);
    [| | exists fin; split; [exact Hloop|]]; try reflexivity.
  split; [assumption|]. split.
  - rewrite Hc. simpl. rewrite <- app_assoc. reflexivity.
  - apply add_edge_rejects; [assumption | | ]; rewrite Hp; assumption.
Qed.

Lemma add_edge_guard_persists_witness :
  exists fin,
    for_each [str "d"; str "e"] (add_edge (str "a"))
             (state_after (add_edge (str "a") (str "c")) star_a_b) = (inr tt, fin) /\
    parent_node fin = str "a" /\
    children_nodes fin = children_nodes star_a_b ++ str "c" :: [str "d"; str "e"] /\
    add_edge (str "x") (str "y") fin = (inl StructureViolation, fin).
Proof.
  apply (add_edge_guard_persists (str "a") (str "c") (str "x") (str "y")
           [str "d"; str "e"] star_a_b
           (state_after (add_edge (str "a") (str "c")) star_a_b)).
  - exact star_inv_star_a_b.
  - reflexivity.
  - discriminate.
  - intros w [<- | [<- | []]]; discriminate.
  - reflexivity.
  - discriminate.
Defined.

(** ** More on the constructor *)

Lemma fix_parent_loop_raises (es : list edge) :
  forall (self self' : NaiveBayesModel) (e : exn),
    for_each es fix_parent self = (inl e, self') -> e = StructureViolation.
Proof.
  induction es as [| f es IH]; intros self self' e Hrun; simpl in Hrun.
  - discriminate.
  - unfold bind in Hrun.
    destruct (fix_parent f self) as [[err | []] mid] eqn:Ef.
    + injection Hrun as <- <-. unfold fix_parent, bind, get in Ef.
      destruct (truthy (parent_node self) && negb (pyval_eqb (fst f) (parent_node self))).
      * unfold raise in Ef. congruence.
      * discriminate.
    + eapply IH, Hrun.
Qed.

(** Bulk construction is rejected with StructureViolation whenever the
    edge list holds two edges with different sources, every source is a
    value Python counts as true and no target is also a source (so that
    the list has no self-loop and closes no path), wherever the two edges
    stand in the list. *)
Theorem new_two_sources_rejected (es : list edge) (e1 e2 : edge) :
  In e1 es -> In e2 es ->
  fst e1 <> fst e2 ->
  (forall e, In e es -> truthy (fst e) = true) ->
  (forall e f, In e es -> In f es -> snd e <> fst f) ->
  NaiveBayesModel_new (Some es) = inl StructureViolation.
Proof.
  intros H1 H2 Hne Ht _. destruct es as [| e es]; [destruct H1|].
  rewrite new_unfolds. cbv zeta.
  set (g := DiGraph_add_edges (e :: es) empty_graph).
  assert (Hedges : forall f, In f (edges g) <-> In f (e :: es)).
  { intros f. unfold g. rewrite add_edges_edges. simpl. tauto. }
  destruct (for_each (edges g) fix_parent (mkModel g true PyNone [] []))
    as [[err | []] mid] eqn:Eloop.
  - apply fix_parent_loop_raises in Eloop. congruence.
  - exfalso. apply fix_parent_loop in Eloop.
    + destruct Eloop as [[Hnil _] | (p & Hall & _)].
      * apply Hedges in H1. rewrite Hnil in H1. destruct H1.
      * apply Hne. rewrite (Hall e1), (Hall e2); [reflexivity | |]; apply Hedges; assumption.
    + intros f Hf. apply Ht, Hedges, Hf.
Qed.

Lemma new_two_sources_rejected_witness :
  NaiveBayesModel_new
    (Some [(PyInt 1, PyInt 2); (PyInt 1, PyInt 3); (PyInt 4, PyInt 2)])
  = inl StructureViolation.
Proof.
  apply (new_two_sources_rejected
           [(PyInt 1, PyInt 2); (PyInt 1, PyInt 3); (PyInt 4, PyInt 2)]
           (PyInt 1, PyInt 3) (PyInt 4, PyInt 2)).
  - right. left. reflexivity.
  - right. right. left. reflexivity.
  - discriminate.
  - intros e [<- | [<- | [<- | []]]]; reflexivity.
  - intros e f [<- | [<- | [<- | []]]] [<- | [<- | [<- | []]]]; discriminate.
Defined.

(** Bulk construction from a non-empty edge list whose edges all leave
    the same one-character string [p], none of them a self-loop, returns a
    model rooted at [p]; its [children_nodes] holds each target once and
    nothing else, and its store holds the given edges. *)
Theorem new_star_of_single_char_parent (p : pyval) (e : edge) (es : list edge) :
  single_char p = true ->
  (forall f, In f (e :: es) -> fst f = p /\ snd f <> p) ->
  exists self,
    NaiveBayesModel_new (Some (e :: es)) = inr self /\
    parent_node self = p /\
    NoDup (children_nodes self) /\
    (forall c, In c (children_nodes self) <-> exists f, In f (e :: es) /\ snd f = c) /\
    (forall f, In f (edges (graph self)) <-> In f (e :: es)).
Proof.
  intros Hp Hall.
  rewrite (new_common_source p) by (intros f Hf; apply Hall, Hf).
  cbv zeta. rewrite (single_char_set p Hp).
  set (g := DiGraph_add_edges (e :: es) empty_graph).
  assert (Hedges : forall f, In f (edges g) <-> In f (e :: es)).
  { intros f. unfold g. rewrite add_edges_edges. simpl. tauto. }
  assert (Hnodes : nodes_are_endpoints g).
  { apply add_edges_endpoints, empty_graph_endpoints. }
  eexists. split; [reflexivity|].
  cbn [graph has_parent_node parent_node children_nodes cpds].
  split; [reflexivity|]. split; [| split; [| exact Hedges]].
  - apply NoDup_filter, set_of_list_NoDup.
  - intros c. rewrite set_difference_In, set_of_list_In, (Hnodes c). split.
    + intros [[f [Hf [Hs | Hs]]] Hc].
      * exfalso. apply Hc. left. rewrite <- Hs. symmetry.
        apply Hall, Hedges, Hf.
      * exists f. split; [apply Hedges, Hf | exact Hs].
    + intros [f [Hf Hs]]. split.
      * exists f. split; [apply Hedges, Hf | auto].
      * intros [Hc | []]. apply (proj2 (Hall f Hf)). congruence.
Qed.

Lemma new_star_of_single_char_parent_witness :
  exists self,
    NaiveBayesModel_new (Some [(str "a", str "b"); (str "a", str "cd"); (str "a", str "b")])
    = inr self /\
    parent_node self = str "a" /\
    NoDup (children_nodes self) /\
    (forall c, In c (children_nodes self) <->
               exists f, In f [(str "a", str "b"); (str "a", str "cd"); (str "a", str "b")]
                         /\ snd f = c) /\
    (forall f, In f (edges (graph self)) <->
               In f [(str "a", str "b"); (str "a", str "cd"); (str "a", str "b")]).
Proof.
  apply (new_star_of_single_char_parent (str "a") (str "a", str "b")
           [(str "a", str "cd"); (str "a", str "b")]).
  - reflexivity.
  - intros f [<- | [<- | [<- | []]]]; split; (reflexivity || discriminate).
Defined.

(** Bulk construction from a non-empty edge list whose edges all leave a
    node that Python cannot iterate (an integer, say), none of them a
    self-loop, raises [TypeError]: no model with such a parent comes out
    of the constructor. *)
Theorem new_non_iterable_source (p : pyval) (e : edge) (es : list edge) :
  py_iter p = inl TypeError ->
  (forall f, In f (e :: es) -> fst f = p /\ snd f <> p) ->
  NaiveBayesModel_new (Some (e :: es)) = inl TypeError.
Proof.
  intros Hp Hall.
  rewrite (new_common_source p) by (intros f Hf; apply Hall, Hf).
  cbv zeta. unfold py_set. rewrite Hp. reflexivity.
Qed.

Lemma new_non_iterable_source_witness :
  NaiveBayesModel_new (Some [(PyInt 7, str "b"); (PyInt 7, str "c")]) = inl TypeError.
Proof.
  apply (new_non_iterable_source (PyInt 7)); [reflexivity|].
  intros f [<- | [<- | []]]; split; (reflexivity || discriminate).
Defined.

Lemma add_edges_common_source (p : pyval) (l : list edge) :
  forall (f : edge) (self : NaiveBayesModel),
    has_parent_node self = true ->
    truthy (parent_node self) = false \/ parent_node self = p ->
    (forall f', In f' (f :: l) -> fst f' = p) ->
    for_each (f :: l) (fun e => add_edge (fst e) (snd e)) self =
    (inr tt, mkModel (DiGraph_add_edges (f :: l) (graph self)) true p
                     (children_nodes self ++ map snd (f :: l)) (cpds self)).
Proof.
  induction l as [| f' l IH]; intros f self Hattr Hp Hall.
  - assert (Hf : fst f = p) by (apply Hall; left; reflexivity).
    simpl. unfold bind. rewrite add_edge_accepts; [| assumption |].
    + rewrite Hf. reflexivity.
    + rewrite Hf. destruct Hp; auto.
  - assert (Hf : fst f = p) by (apply Hall; left; reflexivity).
    change (for_each (f :: f' :: l) (fun e => add_edge (fst e) (snd e)) self)
      with (bind (add_edge (fst f) (snd f))
                 (fun _ => for_each (f' :: l) (fun e => add_edge (fst e) (snd e))) self).
    unfold bind. rewrite add_edge_accepts; [| assumption |].
    + rewrite IH; [| reflexivity | right; exact Hf |].
      * cbn [graph has_parent_node parent_node children_nodes cpds].
        rewrite <- app_assoc. reflexivity.
      * intros g Hg. apply Hall. right. exact Hg.
    + rewrite Hf. destruct Hp; auto.
Qed.

(** Building a star edge by edge and building it in bulk agree: for a
    non-empty edge list with one common source, a one-character string,
    and no self-loop, [add_edge] for each edge on an empty model and the
    constructor on the list both return, with the same store, the same
    [parent_node] and the same members of [children_nodes]; edge by edge
    [children_nodes] lists the targets in call order, repeats included. *)
Theorem add_edge_by_edge_agrees_with_bulk (p : pyval) (e : edge) (es : list edge) :
  single_char p = true ->
  (forall f, In f (e :: es) -> fst f = p /\ snd f <> p) ->
  exists grown built,
    for_each (e :: es) (fun f => add_edge (fst f) (snd f)) empty_model = (inr tt, grown) /\
    NaiveBayesModel_new (Some (e :: es)) = inr built /\
    graph grown = graph built /\
    parent_node grown = parent_node built /\
    children_nodes grown = map snd (e :: es) /\
    (forall c, In c (children_nodes grown) <-> In c (children_nodes built)).
Proof.
  intros Hp Hall.
  assert (Hsrc : forall f, In f (e :: es) -> fst f = p) by (intros f Hf; apply Hall, Hf).
  rewrite (add_edges_common_source p es e empty_model eq_refl (or_introl eq_refl) Hsrc).
  rewrite (new_common_source p e es Hsrc). cbv zeta. rewrite (single_char_set p Hp).
  set (g := DiGraph_add_edges (e :: es) empty_graph).
  assert (Hedges : forall f, In f (edges g) <-> In f (e :: es)).
  { intros f. unfold g. rewrite add_edges_edges. simpl. tauto. }
  assert (Hnodes : nodes_are_endpoints g).
  { apply add_edges_endpoints, empty_graph_endpoints. }
  do 2 eexists. split; [reflexivity|]. split; [reflexivity|].
  cbn [graph has_parent_node parent_node children_nodes cpds empty_model app].
  repeat split; try reflexivity.
  - intros Hc. apply in_map_iff in Hc as [f [Hs Hf]].
    apply set_difference_In. rewrite set_of_list_In. split.
    + apply Hnodes. exists f. split; [apply Hedges, Hf | auto].
    + intros [Hcp | []]. apply (proj2 (Hall f Hf)). congruence.
  - intros Hc. apply set_difference_In in Hc as [Hn Hc].
    apply set_of_list_In, Hnodes in Hn as [f [Hf [Hs | Hs]]].
    + exfalso. apply Hc. left. rewrite <- Hs. symmetry. apply Hsrc, Hedges, Hf.
    + apply in_map_iff. exists f. split; [exact Hs | apply Hedges, Hf].
Qed.

Lemma add_edge_by_edge_agrees_with_bulk_witness :
  exists grown built,
    for_each [(str "a", str "b"); (str "a", str "c"); (str "a", str "b")]
             (fun f => add_edge (fst f) (snd f)) empty_model = (inr tt, grown) /\
    NaiveBayesModel_new (Some [(str "a", str "b"); (str "a", str "c"); (str "a", str "b")])
    = inr built /\
    graph grown = graph built /\
    parent_node grown = parent_node built /\
    children_nodes grown
    = map snd [(str "a", str "b"); (str "a", str "c"); (str "a", str "b")] /\
    (forall c, In c (children_nodes grown) <-> In c (children_nodes built)).
Proof.
  apply (add_edge_by_edge_agrees_with_bulk (str "a") (str "a", str "b")
           [(str "a", str "c"); (str "a", str "b")]).
  - reflexivity.
  - intros f [<- | [<- | [<- | []]]]; split; (reflexivity || discriminate).
Defined.

(** ** More on [active_trail_nodes] *)

Lemma parent_observed_test (self : NaiveBayesModel) (observed : option (list pyval)) :
  observed_truthy observed && py_in (parent_node self) (observed_items observed)
  = py_in (parent_node self) (observed_items observed).
Proof.
  destruct observed as [[| o l] |]; reflexivity.
Qed.

Lemma observed_set (observed : option (list pyval)) :
  (if observed_truthy observed then observed_items observed else [])
  = observed_items observed.
Proof.
  destruct observed as [[| o l] |]; reflexivity.
Qed.

(** Reachability in the star, for a start node that is a one-character
    string: the call returns, and a node is reached exactly when either
    the parent is observed and the node is the start node itself, or the
    parent is not observed and the node is a node of the structure that
    is not observed. *)
Theorem active_trail_single_char_start (self : NaiveBayesModel) (start : pyval)
        (observed : option (list pyval)) :
  single_char start = true ->
  exists reached,
    active_trail_nodes self start observed = inr reached /\
    NoDup reached /\
    (forall n, In n reached <->
       (In (parent_node self) (observed_items observed) /\ n = start) \/
       (~ In (parent_node self) (observed_items observed) /\
        In n (nodes (graph self)) /\ ~ In n (observed_items observed))).
Proof.
  intros Hs. unfold active_trail_nodes.
  rewrite parent_observed_test, observed_set.
  destruct (py_in (parent_node self) (observed_items observed)) eqn:E.
  - apply py_in_In in E. rewrite (single_char_set start Hs).
    exists [start]. split; [reflexivity|]. split.
    + constructor; [intros [] | constructor].
    + intros n. simpl. split.
      * intros [<- | []]. left. auto.
      * intros [[_ ->] | [H _]]; [auto | contradiction].
  - apply py_in_not_In in E. eexists. split; [reflexivity|]. split.
    + apply NoDup_filter, set_of_list_NoDup.
    + intros n. rewrite set_difference_In, !set_of_list_In. tauto.
Qed.

Lemma active_trail_single_char_start_witness :
  single_char (str "b") = true /\
  exists reached,
    active_trail_nodes star_a_b (str "b") (Some [str "a"]) = inr reached /\
    NoDup reached /\
    (forall n, In n reached <->
       (In (parent_node star_a_b) (observed_items (Some [str "a"])) /\ n = str "b") \/
       (~ In (parent_node star_a_b) (observed_items (Some [str "a"])) /\
        In n (nodes (graph star_a_b)) /\ ~ In n (observed_items (Some [str "a"])))).
Proof.
  split; [reflexivity|].
  exact (active_trail_single_char_start star_a_b (str "b") (Some [str "a"]) eq_refl).
Defined.

(** [active_trail_nodes] raises only [TypeError], and exactly when the
    parent is among the observed nodes and the start node is a value
    Python cannot iterate, such as an integer. *)
Theorem active_trail_raises_iff (self : NaiveBayesModel) (start : pyval)
        (observed : option (list pyval)) (e : exn) :
  active_trail_nodes self start observed = inl e <->
  e = TypeError /\
  In (parent_node self) (observed_items observed) /\
  py_iter start = inl TypeError.
Proof.
  unfold active_trail_nodes. rewrite parent_observed_test.
  destruct (py_in (parent_node self) (observed_items observed)) eqn:E.
  - apply py_in_In in E. rewrite py_set_raises. tauto.
  - apply py_in_not_In in E. split; [discriminate | tauto].
Qed.

(** ** More on [local_independencies] *)

Lemma local_independencies_loop_entry_for (self : NaiveBayesModel) (vars : list pyval) :
  forall acc r,
    local_independencies_loop self vars acc = inr r ->
    exists r', r = acc ++ r' /\ Forall2 (entry_for self) vars r'.
Proof.
  induction vars as [| v vars IH]; intros acc r H; simpl in H.
  - injection H as <-. exists []. rewrite app_nil_r. split; [reflexivity | constructor].
  - destruct (pyval_eqb v (parent_node self)) eqn:E; simpl in H.
    + apply pyval_eqb_eq in E. apply IH in H as (r' & -> & HF).
      exists (None :: r'). rewrite <- app_assoc. split; [reflexivity|].
      constructor; assumption.
    + apply pyval_eqb_neq in E. destruct (py_set v) as [err | sv]; [discriminate|].
      apply IH in H as (r' & -> & HF).
      eexists (Some _ :: r'). rewrite <- app_assoc. split; [reflexivity|].
      constructor; [| assumption]. simpl. repeat split; try assumption.
      * apply NoDup_filter, set_of_list_NoDup.
      * intros c Hc. apply set_difference_In in Hc as [Hc _].
        apply set_of_list_In, Hc.
Qed.

(** Whenever [local_independencies] returns for a list of nodes, the
    answer has one entry per queried node, in order, none filtered out:
    the entry is null exactly for a node equal to the parent, and
    otherwise an assertion with that node as subject, conditioned on the
    parent, whose independent nodes are children of the model, each listed
    once even if [children_nodes] repeats them. *)
Theorem local_independencies_entries (self : NaiveBayesModel) (vars : list pyval)
        (r : list (option Independencies)) :
  local_independencies self (NodeList vars) = inr r ->
  List.length r = List.length vars /\ Forall2 (entry_for self) vars r.
Proof.
  unfold local_independencies. simpl variables_iter. cbv iota. intros H.
  apply local_independencies_loop_entry_for in H as (r' & -> & HF).
  simpl. split; [| assumption]. symmetry. eapply Forall2_length, HF.
Qed.

Lemma local_independencies_entries_witness :
  List.length [Some (mkIndependencies (str "c1") [str "c1"; str "c2"] (str "p")); None]
  = List.length [str "c1"; str "p"] /\
  Forall2 (entry_for star_p_c1_c2) [str "c1"; str "p"]
          [Some (mkIndependencies (str "c1") [str "c1"; str "c2"] (str "p")); None].
Proof.
  exact (local_independencies_entries star_p_c1_c2 [str "c1"; str "p"] _ eq_refl).
Defined.

Lemma local_independencies_loop_raises (self : NaiveBayesModel) (vars : list pyval) :
  forall acc e,
    local_independencies_loop self vars acc = inl e <->
    e = TypeError /\
    exists v, In v vars /\ v <> parent_node self /\ py_iter v = inl TypeError.
Proof.
  induction vars as [| v vars IH]; intros acc e; simpl.
  - split; [discriminate | intros [_ [v [[] _]]]].
  - destruct (pyval_eqb v (parent_node self)) eqn:E; simpl.
    + apply pyval_eqb_eq in E. rewrite IH. split.
      * intros [He [w [Hw H]]]. split; [assumption|]. exists w. auto.
      * intros [He [w [[<- | Hw] [Hne H]]]]; [contradiction|].
        split; [assumption|]. exists w. auto.
    + apply pyval_eqb_neq in E.
      destruct (py_set v) as [err | sv] eqn:Es.
      * apply py_set_raises in Es as [-> Es]. split.
        -- intros [= <-]. split; [reflexivity|]. exists v. auto.
        -- intros [-> _]. reflexivity.
      * rewrite IH. split.
        -- intros [He [w [Hw H]]]. split; [assumption|]. exists w. auto.
        -- intros [He [w [[<- | Hw] [Hne H]]]].
           ++ unfold py_set in Es. rewrite H in Es. discriminate.
           ++ split; [assumption|]. exists w. auto.
Qed.

(** A node that Python cannot iterate, such as an integer, cannot be
    queried unless it is the parent: a list that holds such a node makes
    [local_independencies] raise, it never gets an answer. *)
Theorem local_independencies_non_iterable_node (self : NaiveBayesModel)
        (vars : list pyval) (v : pyval) :
  In v vars ->
  v <> parent_node self ->
  py_iter v = inl TypeError ->
  forall r, local_independencies self (NodeList vars) <> inr r.
Proof.
  intros Hin Hne Hv r Hr.
  assert (E : local_independencies self (NodeList vars) = inl TypeError).
  { unfold local_independencies. simpl variables_iter. cbv iota.
    apply local_independencies_loop_raises. split; [reflexivity|].
    exists v. auto. }
  congruence.
Qed.

Lemma local_independencies_non_iterable_node_witness :
  local_independencies rooted_at_zero (NodeList [PyInt 0; PyInt 1])
  <> inr [None; None].
Proof.
  apply (local_independencies_non_iterable_node rooted_at_zero
           [PyInt 0; PyInt 1] (PyInt 1)).
  - right. left. reflexivity.
  - discriminate.
  - reflexivity.
Defined.

Lemma local_independency_members (self : NaiveBayesModel) (v : pyval) :
  (local_independency self v = None <-> v = parent_node self) /\
  (forall a, local_independency self v = Some a ->
             event1 a = v /\ event3 a = parent_node self /\
             NoDup (event2 a) /\
             (forall c, In c (event2 a) <-> In c (children_nodes self) /\ c <> v)).
Proof.
  unfold local_independency. destruct (pyval_eqb v (parent_node self)) eqn:E.
  - apply pyval_eqb_eq in E. split; [tauto | discriminate].
  - apply pyval_eqb_neq in E. split; [split; [discriminate | contradiction]|].
    intros a [= <-]. simpl. repeat split.
    + apply NoDup_filter, set_of_list_NoDup.
    + apply set_difference_In in H. apply set_of_list_In, H.
    + apply set_difference_In in H as [_ H]. intros ->. apply H. left. reflexivity.
    + intros [Hc Hne]. apply set_difference_In. rewrite set_of_list_In.
      split; [assumption|]. intros [Hv | []]. congruence.
Qed.

(** For queried nodes that are one-character strings, whenever
    [local_independencies] returns, the answer has one entry per node, in
    order: a null entry for the parent, and for any other node [v] the
    assertion that [v] is independent, given the parent, of the children
    other than [v], each listed once. *)
Theorem local_independencies_single_char_nodes (self : NaiveBayesModel)
        (vars : list pyval) (r : list (option Independencies)) :
  Forall (fun v => single_char v = true) vars ->
  local_independencies self (NodeList vars) = inr r ->
  List.length r = List.length vars /\
  (forall i v, nth_error vars i = Some v ->
     (v = parent_node self /\ nth_error r i = Some None) \/
     (v <> parent_node self /\
      exists a, nth_error r i = Some (Some a) /\
                event1 a = v /\ event3 a = parent_node self /\
                NoDup (event2 a) /\
                (forall c, In c (event2 a) <->
                           In c (children_nodes self) /\ c <> v))).
Proof.
  intros HF Hr.
  rewrite (local_independencies_single_chars self vars HF) in Hr.
  injection Hr as <-.
  split; [apply length_map|].
  intros i v Hi. rewrite nth_error_map, Hi. simpl.
  destruct (local_independency_members self v) as [Hnone Hsome].
  destruct (local_independency self v) as [a |] eqn:E.
  - right. split.
    + intros Hv. apply Hnone in Hv. discriminate.
    + exists a. split; [reflexivity|]. apply Hsome. reflexivity.
  - left. split; [apply Hnone; reflexivity | reflexivity].
Qed.

Lemma local_independencies_single_char_nodes_witness :
  local_independencies star_a_b_c (NodeList [str "b"; str "a"])
  = inr [Some (mkIndependencies (str "b") [str "c"] (str "a")); None] /\
  exists a,
    nth_error [Some (mkIndependencies (str "b") [str "c"] (str "a")); None] 0
    = Some (Some a) /\
    event1 a = str "b" /\ event3 a = parent_node star_a_b_c /\
    NoDup (event2 a) /\
    (forall c, In c (event2 a) <-> In c (children_nodes star_a_b_c) /\ c <> str "b").
Proof.
  split; [reflexivity|].
  assert (F : Forall (fun v => single_char v = true) [str "b"; str "a"])
    by (repeat constructor).
  destruct (local_independencies_single_char_nodes star_a_b_c [str "b"; str "a"] _ F eq_refl)
    as [_ H].
  destruct (H 0%nat (str "b") eq_refl) as [[Hp _] | [_ Ha]].
  - discriminate Hp.
  - exact Ha.
Defined.

(** ** More on [fit] *)



Section MoreOnFit.

Variable estimator : option string -> DiGraph -> DataFrame -> exn + list TabularCPD.



End MoreOnFit.


